(** * bionic: remote task lifecycle (bionic/aip/task.py) and cache entries
      (bionic/cache_api.py)

    A shallow embedding of the two Python modules.  Python values that the
    code builds or inspects (the job request, the describe response) are
    values of [pyval]; a [dict] is an association list in insertion order.
    Code that talks to the object store and to the job service runs in a
    state-and-exception monad over a [World] that also records the calls
    made, in order.  Calls to [logging] only write to the log and are left
    out. *)

From Stdlib Require Import String Ascii List ZArith Bool Lia DecimalString.
Import ListNotations.
Local Open Scope string_scope.
Local Open Scope Z_scope.

Set Warnings "-register-all".

(** ** Python values *)

Inductive pyval : Type :=
| PNone
| PBool (b : bool)
| PInt (z : Z)
| PStr (s : string)
| PList (l : list pyval)
| PDict (d : list (string * pyval)).

(** [Optional[str]] fields hold either a string or [None]. *)
Definition of_optional_str (o : option string) : pyval :=
  match o with
  | Some s => PStr s
  | None => PNone
  end.

Module Dict.

(** [d[k]] on the entries of a dict; [None] stands for [KeyError]. *)
Fixpoint lookup (k : string) (d : list (string * pyval)) : option pyval :=
  match d with
  | [] => None
  | (k', v) :: d' => if String.eqb k k' then Some v else lookup k d'
  end.

(** [d[k] = v]: an existing key keeps its position, a new one goes last. *)
Fixpoint insert (k : string) (v : pyval) (d : list (string * pyval))
  : list (string * pyval) :=
  match d with
  | [] => [(k, v)]
  | (k', v') :: d' =>
      if String.eqb k k' then (k, v) :: d' else (k', v') :: insert k v d'
  end.

End Dict.

(** [v[k]]; [None] when [v] has no key [k] (or is not a dict). *)
Definition getitem (k : string) (v : pyval) : option pyval :=
  match v with
  | PDict d => Dict.lookup k d
  | _ => None
  end.

(** [k in v] for a dict [v]. *)
Definition contains (k : string) (v : pyval) : bool :=
  match getitem k v with
  | Some _ => true
  | None => false
  end.

(** [v[k] = x]. *)
Definition setitem (k : string) (x : pyval) (v : pyval) : pyval :=
  match v with
  | PDict d => PDict (Dict.insert k x d)
  | _ => v
  end.

(** [v[k1][k2] = x].  The inner dict is the object stored under [k1], so the
    assignment is visible through [v].  The only caller applies it to a dict
    literal that has the key [k1]; without it Python raises [KeyError], and
    the model leaves [v] as it is. *)
Definition setitem_in (k1 k2 : string) (x : pyval) (v : pyval) : pyval :=
  match getitem k1 v with
  | Some inner => setitem k1 (setitem k2 x inner) v
  | None => v
  end.

(** [v[k1][k2]]. *)
Definition getitem_in (k1 k2 : string) (v : pyval) : option pyval :=
  match getitem k1 v with
  | Some inner => getitem k2 inner
  | None => None
  end.

(** ** Exceptions *)

Inductive exn : Type :=
| AipError (msg : string)
| KeyError (key : pyval)
| TypeError (msg : string)
| External (kind msg : string).

(** [hay] has [needle] as a contiguous part. *)
Definition includes (hay needle : string) : Prop :=
  exists pre post, hay = pre ++ needle ++ post.

Module Aip.

(** ** What the module takes from outside

    [bionic.aip.state] (the [State] enum), [import_optional_dependency],
    [cloudpickle]/[pickle] and the builtin [repr] are not part of these
    sources; the code is embedded over any implementation of them. *)
Class Runtime : Type := {
  (** the payload of a task, a Python callable *)
  Callable : Type;
  (** what [pickle.load] yields *)
  Obj : Type;
  (** the members of the enum [State] *)
  State : Type;
  (** [State[name]]; [None] when the enum has no member of that name *)
  State_getitem : string -> option State;
  SUCCEEDED : State;
  State_eq_dec : forall a b : State, {a = b} + {a <> b};
  (** [state.is_executing()] *)
  is_executing : State -> bool;
  (** [import_optional_dependency(name)]: the exception it raises, if any *)
  import_optional_dependency : string -> option exn;
  (** the builtin [repr] *)
  repr : pyval -> string
}.

Section DataModel.

Context {RT : Runtime}.

Record TaskConfig : Type := {
  machine : string;
  worker_count : option Z;
  worker_machine : option string
}.

Record Config : Type := {
  uuid : string;
  image_uri : string;
  project_name : string;
  account : option string;
  network : option string
}.

Record Task : Type := {
  name : string;
  function : Callable;
  config : Config;
  task_config : TaskConfig
}.


(** [str(v)]: a string is itself, [None] prints as ["None"], any other
    value prints as its [repr]. *)
Definition py_str (v : pyval) : string :=
  match v with
  | PStr s => s
  | PNone => "None"
  | _ => repr v
  end.

Definition job_id (self : Task) : string :=
  uuid (config self) ++ "_" ++ name self.

Definition inputs_uri (self : Task) : string :=
  "gs://" ++ project_name (config self) ++ "/bionic/" ++ uuid (config self)
    ++ "/" ++ name self ++ "-inputs.cloudpickle".

Definition output_uri (self : Task) : string :=
  "gs://" ++ project_name (config self) ++ "/bionic/" ++ uuid (config self)
    ++ "/" ++ name self ++ "-output.cloudpickle".

Definition _ai_platform_job_spec (self : Task) : pyval :=
  let output :=
    PDict [
      ("jobId", PStr (job_id self));
      ("labels", PDict [("job", PStr (uuid (config self)))]);
      ("trainingInput", PDict [
        ("serviceAccount", of_optional_str (account (config self)));
        ("masterType", PStr (machine (task_config self)));
        ("masterConfig", PDict [("imageUri", PStr (image_uri (config self)))]);
        ("args", PList [PStr "python"; PStr "-m"; PStr "bionic.aip.main";
                        PStr (inputs_uri self)]);
        ("packageUris", PList []);
        ("region", PStr "us-west1");
        ("pythonModule", PStr "");
        ("scaleTier", PStr "CUSTOM")
      ])
    ] in
  let output :=
    match network (config self) with
    | Some n => setitem_in "trainingInput" "network" (PStr n) output
    | None => output
    end in
  let output :=
    match worker_count (task_config self) with
    | Some n =>
        if 0 <? n then
          let output :=
            setitem_in "trainingInput" "workerCount" (PInt n) output in
          let output :=
            setitem_in "trainingInput" "workerType"
              (of_optional_str (worker_machine (task_config self))) output in
          setitem_in "trainingInput" "workerConfig"
            (PDict [("imageUri", PStr (image_uri (config self)))]) output
        else output
    | None => output
    end in
  output.

End DataModel.

(** ** The object store and the job service

    [gcs_fs] and [aip_client] are objects of other libraries.  Each call the
    code makes on them is an operation on the collaborator's state that
    returns or raises and leaves a new state. *)
Class Services {RT : Runtime} : Type := {
  GcsFs : Type;
  AipClient : Type;
  (** [with gcs_fs.open(path, "wb") as f: cloudpickle.dump(task, f)] *)
  dump_to : string -> Task -> GcsFs -> (exn + unit) * GcsFs;
  (** [with gcs_fs.open(path, "rb") as f: return pickle.load(f)] *)
  load_from : string -> GcsFs -> (exn + Obj) * GcsFs;
  (** [aip_client.projects().jobs().create(body=, parent=).execute()] *)
  jobs_create : pyval -> string -> AipClient -> (exn + unit) * AipClient;
  (** [aip_client.projects().jobs().get(name=).execute()], a dict *)
  jobs_get : string -> AipClient -> (exn + list (string * pyval)) * AipClient
}.

(** The calls that leave the process, as they are made. *)
Inductive event : Type :=
| Open (path mode : string)
| Create (body : pyval) (parent : string)
| Get (name : string)
| Sleep (secs : Z).

(** How a call ends.  [Unfinished] is the model's own: the bound given for
    the polling loop was used up while the job was still executing. *)
Inductive outcome (X : Type) : Type :=
| Returns (x : X)
| Raises (e : exn)
| Unfinished.

Arguments Returns {X} x.
Arguments Raises {X} e.
Arguments Unfinished {X}.

Section Lifecycle.

Context {RT : Runtime} {SV : Services}.

Record World : Type := {
  gcs_fs : GcsFs;
  aip_client : AipClient;
  trace : list event
}.

Definition M (X : Type) : Type := World -> outcome X * World.

Definition ret {X} (x : X) : M X := fun w => (Returns x, w).

Definition raise {X} (e : exn) : M X := fun w => (Raises e, w).

Definition unfinished {X} : M X := fun w => (Unfinished, w).

Definition bind {X Y} (c : M X) (k : X -> M Y) : M Y :=
  fun w =>
    match c w with
    | (Returns x, w') => k x w'
    | (Raises e, w') => (Raises e, w')
    | (Unfinished, w') => (Unfinished, w')
    end.

Definition emit (e : event) : M unit :=
  fun w => (Returns tt,
            {| gcs_fs := gcs_fs w;
               aip_client := aip_client w;
               trace := trace w ++ [e] |}).

Definition of_sum {X} (r : exn + X) : outcome X :=
  match r with
  | inl e => Raises e
  | inr x => Returns x
  end.

(** A call on [gcs_fs]. *)
Definition on_fs {X} (op : GcsFs -> (exn + X) * GcsFs) : M X :=
  fun w =>
    let (r, fs) := op (gcs_fs w) in
    (of_sum r,
     {| gcs_fs := fs; aip_client := aip_client w; trace := trace w |}).

(** A call on [aip_client]. *)
Definition on_client {X} (op : AipClient -> (exn + X) * AipClient) : M X :=
  fun w =>
    let (r, c) := op (aip_client w) in
    (of_sum r,
     {| gcs_fs := gcs_fs w; aip_client := c; trace := trace w |}).

(** [time.sleep(secs)] *)
Definition sleep (secs : Z) : M unit := emit (Sleep secs).

Notation "x <- c ;; k" := (bind c (fun x => k))
  (at level 61, c at next level, right associativity).
Notation "c ;; k" := (bind c (fun _ => k))
  (at level 61, right associativity).

(** [State[v]]: the enum looks the name up in a dict of its members. *)
Definition State_lookup (v : pyval) : exn + State :=
  match v with
  | PStr s =>
      match State_getitem s with
      | Some st => inr st
      | None => inl (KeyError v)
      end
  | PList _ | PDict _ => inl (TypeError "unhashable type")
  | _ => inl (KeyError v)
  end.

Definition _stage (self : Task) : M unit :=
  match import_optional_dependency "cloudpickle" with
  | Some e => raise e
  | None =>
      let path := inputs_uri self in
      emit (Open path "wb") ;;
      on_fs (dump_to path self)
  end.

Definition submit (self : Task) : M unit :=
  _stage self ;;
  let spec := _ai_platform_job_spec self in
  let parent := "projects/" ++ project_name (config self) in
  emit (Create spec parent) ;;
  on_client (jobs_create spec parent).

Definition _get_state_and_error (self : Task) : M (State * pyval) :=
  let name := "projects/" ++ project_name (config self) ++ "/jobs/"
                ++ job_id self in
  emit (Get name) ;;
  response <- on_client (jobs_get name) ;;
  match Dict.lookup "state" response with
  | None => raise (KeyError (PStr "state"))
  | Some v =>
      match State_lookup v with
      | inl e => raise e
      | inr state =>
          let error :=
            match Dict.lookup "errorMessage" response with
            | Some e => e
            | None => PNone
            end in
          ret (state, error)
      end
  end.

(** The [while] loop of [wait_for_results], entered with the pair that
    the last poll returned; [fuel] bounds the number of iterations. *)
Fixpoint poll_while (fuel : nat) (self : Task) (se : State * pyval)
  : M (State * pyval) :=
  if is_executing (fst se) then
    match fuel with
    | O => unfinished
    | S fuel' =>
        sleep 10 ;;
        se' <- _get_state_and_error self ;;
        poll_while fuel' self se'
    end
  else ret se.

(** What follows the loop. *)
Definition conclude (self : Task) (se : State * pyval) : M Obj :=
  let (state, error) := se in
  if State_eq_dec state SUCCEEDED then
    emit (Open (output_uri self) "rb") ;;
    on_fs (load_from (output_uri self))
  else
    raise (AipError (job_id self ++ ": " ++ py_str error)).

Definition wait_for_results (fuel : nat) (self : Task) : M Obj :=
  se <- _get_state_and_error self ;;
  se' <- poll_while fuel self se ;;
  conclude self se'.

End Lifecycle.

(** ** A simulated provider

    An in-memory object store and a scripted job service, the kind of
    double the tests of a client use.  The general statements below are
    about every [Runtime] and every [Services]; these instances run them. *)
Module Sim.

(** Modelled from the spec: [bionic/aip/state.py] is not among the sources.
    The spec has one executing superstate that covers queued, preparing and
    running, and terminal states that include at least SUCCEEDED and one or
    more failure or cancellation states. *)
Inductive SimState : Type :=
| QUEUED
| PREPARING
| RUNNING
| SUCCEEDED_
| FAILED
| CANCELLED.

Definition SimState_eq_dec (a b : SimState) : {a = b} + {a <> b}.
Proof. decide equality. Defined.

Definition SimState_getitem (s : string) : option SimState :=
  if String.eqb s "QUEUED" then Some QUEUED
  else if String.eqb s "PREPARING" then Some PREPARING
  else if String.eqb s "RUNNING" then Some RUNNING
  else if String.eqb s "SUCCEEDED" then Some SUCCEEDED_
  else if String.eqb s "FAILED" then Some FAILED
  else if String.eqb s "CANCELLED" then Some CANCELLED
  else None.

Definition SimState_is_executing (st : SimState) : bool :=
  match st with
  | QUEUED | PREPARING | RUNNING => true
  | SUCCEEDED_ | FAILED | CANCELLED => false
  end.

(** [repr] on the atoms the simulation meets. *)
Definition sim_repr (v : pyval) : string :=
  match v with
  | PNone => "None"
  | PBool true => "True"
  | PBool false => "False"
  | PStr s => "'" ++ s ++ "'"
  | _ => "..."
  end.

(** Callables are known by name; [cloudpickle] is installed. *)
#[export] Instance runtime : Runtime := {|
  Callable := string;
  Obj := pyval;
  State := SimState;
  State_getitem := SimState_getitem;
  SUCCEEDED := SUCCEEDED_;
  State_eq_dec := SimState_eq_dec;
  is_executing := SimState_is_executing;
  import_optional_dependency := fun _ => None;
  repr := sim_repr
|}.

(** What a blob of the store holds. *)
Inductive blob : Type :=
| Pickled (o : pyval)
| PickledTask (t : Task)
| Corrupt.

Record SimFs : Type := {
  blobs : list (string * blob);
  writable : bool
}.

Fixpoint find_blob (path : string) (l : list (string * blob)) : option blob :=
  match l with
  | [] => None
  | (p, b) :: l' => if String.eqb path p then Some b else find_blob path l'
  end.

Definition sim_dump_to (path : string) (t : Task) (fs : SimFs)
  : (exn + unit) * SimFs :=
  if writable fs then
    (inr tt, {| blobs := (path, PickledTask t) :: blobs fs;
                writable := true |})
  else (inl (External "PermissionError" path), fs).

Definition sim_load_from (path : string) (fs : SimFs)
  : (exn + pyval) * SimFs :=
  match find_blob path (blobs fs) with
  | Some (Pickled o) => (inr o, fs)
  | Some _ => (inl (External "UnpicklingError" path), fs)
  | None => (inl (External "FileNotFoundError" path), fs)
  end.

(** The service answers [get] from a script and accepts [quota] more
    jobs. *)
Record SimClient : Type := {
  replies : list (list (string * pyval));
  quota : nat;
  created : list (pyval * string)
}.

Definition sim_jobs_create (body : pyval) (parent : string) (c : SimClient)
  : (exn + unit) * SimClient :=
  match quota c with
  | O => (inl (External "HttpError" "429"), c)
  | S q =>
      (inr tt, {| replies := replies c;
                  quota := q;
                  created := created c ++ [(body, parent)] |})
  end.

Definition sim_jobs_get (name : string) (c : SimClient)
  : (exn + list (string * pyval)) * SimClient :=
  match replies c with
  | [] => (inl (External "StopIteration" name), c)
  | r :: rs =>
      (inr r, {| replies := rs; quota := quota c; created := created c |})
  end.

#[export] Instance services : Services := {|
  GcsFs := SimFs;
  AipClient := SimClient;
  dump_to := sim_dump_to;
  load_from := sim_load_from;
  jobs_create := sim_jobs_create;
  jobs_get := sim_jobs_get
|}.

Definition the_config : Config :=
  {| uuid := "u1"; image_uri := "gcr.io/p/img"; project_name := "proj";
     account := None; network := None |}.

(** A single-machine task. *)
Definition solo : Task :=
  {| name := "t"; function := "f"; config := the_config;
     task_config := {| machine := "n1-standard-4";
                       worker_count := None;
                       worker_machine := None |} |}.

(** A task with two workers. *)
Definition cluster : Task :=
  {| name := "t"; function := "f";
     config := {| uuid := "u1"; image_uri := "gcr.io/p/img";
                  project_name := "proj";
                  account := Some "sa@proj"; network := Some "vpc" |};
     task_config := {| machine := "n1-standard-4";
                       worker_count := Some 2;
                       worker_machine := Some "n1-highmem-8" |} |}.

(** A task that asks for two workers and names no worker machine. *)
Definition shapeless : Task :=
  {| name := "t"; function := "f"; config := the_config;
     task_config := {| machine := "n1-standard-4";
                       worker_count := Some 2;
                       worker_machine := None |} |}.

Definition reply (state : string) : list (string * pyval) :=
  [("jobId", PStr "u1_t"); ("state", PStr state)].

Definition failed_reply (msg : string) : list (string * pyval) :=
  [("jobId", PStr "u1_t"); ("state", PStr "FAILED");
   ("errorMessage", PStr msg)].

(** A world of the simulation, and one at its start. *)
Definition mk (fs : list (string * blob)) (w : bool)
    (script : list (list (string * pyval))) (q : nat)
    (jobs : list (pyval * string)) (tr : list event) : World :=
  {| gcs_fs := {| blobs := fs; writable := w |};
     aip_client := {| replies := script; quota := q; created := jobs |};
     trace := tr |}.

Definition world (fs : list (string * blob)) (w : bool)
    (script : list (list (string * pyval))) (q : nat) : World :=
  mk fs w script q [] [].

(** The store once the remote job of [solo] has written its output. *)
Definition with_output : list (string * blob) :=
  [("gs://proj/bionic/u1/t-output.cloudpickle", Pickled (PInt 42))].

(** The provider reports RUNNING, RUNNING, SUCCEEDED. *)
Definition succeeding : World :=
  world with_output true
    [reply "RUNNING"; reply "RUNNING"; reply "SUCCEEDED"] 0.

(** The provider reports RUNNING, then FAILED with the message "oom". *)
Definition failing : World :=
  world with_output true [reply "RUNNING"; failed_reply "oom"] 0.



(** Store and service accept. *)
Definition accepting : World := world [] true [] 1.

End Sim.

End Aip.

(** ** bionic/cache_api.py: [CacheEntry] *)
Module CacheApi.

(** [bionic.persistence] (inventories and their items), the deriver and the
    builtins [hash] and [repr] are not part of these sources; the class is
    embedded over any implementation of them.  [repr] of a [str] returns;
    [repr] of another value returns a string or raises, as the [__repr__]
    of its class decides.  The decorator [total_ordering] adds [__le__],
    [__gt__] and [__ge__] and leaves [__eq__] and [__lt__] as they are
    written. *)
Class Outside : Type := {
  Deriver : Type;
  Descriptor : Type;
  (** the values that are not instances of [CacheEntry] *)
  Other : Type;
  (** [hash] on [str] *)
  hash : string -> Z;
  (** [repr] on [str] *)
  repr_str : string -> string;
  (** [repr] on the other values: the string, or the exception raised *)
  repr_other : Other -> exn + string
}.

Section Entries.

Context {OS : Outside}.

Record Cache : Type := { _deriver : Deriver }.

Record Inventory : Type := { inv_tier : string }.

(** The attributes of an inventory item that [CacheEntry.__init__] reads. *)
Record InventoryItem : Type := {
  inventory : Inventory;
  abs_artifact_url : string;
  abs_metadata_url : string;
  descriptor : Descriptor
}.

Record CacheEntry : Type := {
  _cache : Cache;
  _comparison_key : string;
  tier : string;
  artifact_url : string;
  metadata_url : string;
  _descriptor : Descriptor;
  _inventory : Inventory
}.

(** [CacheEntry(cache=, inv_item=)] *)
Definition CacheEntry_init (cache : Cache) (inv_item : InventoryItem)
  : CacheEntry :=
  {| _cache := cache;
     _comparison_key := abs_metadata_url inv_item;
     tier := inv_tier (inventory inv_item);
     artifact_url := abs_artifact_url inv_item;
     metadata_url := abs_metadata_url inv_item;
     _descriptor := descriptor inv_item;
     _inventory := inventory inv_item |}.

(** The right operand of a comparison. *)
Inductive operand : Type :=
| AnEntry (e : CacheEntry)
| NotAnEntry (x : Other).

(** What a method hands back: a bool, or an exception instance as an
    ordinary value. *)
Inductive retval : Type :=
| RBool (b : bool)
| RExceptionObject (e : exn).

(** A call returns ([inr]) or raises ([inl]). *)
Definition call : Type := (exn + retval)%type.

(** [bool(v)]: exception classes define neither [__bool__] nor
    [__len__], so their instances are true. *)
Definition truthy (v : retval) : bool :=
  match v with
  | RBool b => b
  | RExceptionObject _ => true
  end.

Definition __repr__ (self : CacheEntry) : string :=
  "CacheEntry(metadata_url=" ++ repr_str (metadata_url self) ++ ")".

Definition __hash__ (self : CacheEntry) : Z :=
  hash (_comparison_key self).

(** [==] and [<] on [str] compare the sequences of characters. *)
Definition __eq__ (self : CacheEntry) (other : operand) : call :=
  match other with
  | NotAnEntry _ => inr (RBool false)
  | AnEntry o =>
      inr (RBool (String.eqb (_comparison_key self) (_comparison_key o)))
  end.

(** The message of the [TypeError] is an f-string: [repr(self)] and
    [repr(other)] are evaluated, in this order, before the exception
    instance is made and returned, and what [repr(other)] raises leaves the
    method. *)
Definition __lt__ (self : CacheEntry) (other : operand) : call :=
  match other with
  | NotAnEntry x =>
      let self_repr := __repr__ self in
      match repr_other x with
      | inl e => inl e
      | inr other_repr =>
          inr (RExceptionObject
                 (TypeError ("Can't compare " ++ self_repr
                               ++ " with non-CacheEntry " ++ other_repr)))
      end
  | AnEntry o =>
      inr (RBool (String.ltb (_comparison_key self) (_comparison_key o)))
  end.

(** [self == other] and [self < other]: the operator calls the method of
    the left operand and takes its result, or raises what the method
    raises, as neither method ever returns [NotImplemented]. *)
Definition op_eq (self : CacheEntry) (other : operand) : call :=
  __eq__ self other.

Definition op_lt (self : CacheEntry) (other : operand) : call :=
  __lt__ self other.

End Entries.

(** Sample inventory items. *)
Module Demo.

(** Values that are no entries: a value of a builtin type, or an instance
    of a class whose [__repr__] raises [RuntimeError]. *)
Inductive sample : Type :=
| Builtin (v : pyval)
| Surly.

(** [repr] on the samples.  CPython, from 3.11 on, refuses to turn an
    [int] of more than 4300 digits into a string. *)
Definition sample_repr (x : sample) : exn + string :=
  match x with
  | Builtin (PInt z) =>
      if 10 ^ 4300 <=? Z.abs z
      then inl (External "ValueError"
                  "Exceeds the limit (4300 digits) for integer string conversion")
      else inr (NilZero.string_of_int (Z.to_int z))
  | Builtin v => inr (Aip.Sim.sim_repr v)
  | Surly => inl (External "RuntimeError" "no repr")
  end.

#[export] Instance outside : Outside := {|
  Deriver := unit;
  Descriptor := string;
  Other := sample;
  hash := fun s => Z.of_nat (String.length s);
  repr_str := fun s => "'" ++ s ++ "'";
  repr_other := sample_repr
|}.

Definition the_cache : Cache := {| _deriver := tt |}.

Definition local_a : InventoryItem :=
  {| inventory := {| inv_tier := "local" |};
     abs_artifact_url := "file:///cache/x/artifact.pkl";
     abs_metadata_url := "a";
     descriptor := "x" |}.

(** The metadata URL of [local_a] in another tier, for another entity. *)
Definition cloud_a : InventoryItem :=
  {| inventory := {| inv_tier := "cloud" |};
     abs_artifact_url := "gs://bucket/y/artifact.pkl";
     abs_metadata_url := "a";
     descriptor := "y" |}.

Definition cloud_b : InventoryItem :=
  {| inventory := {| inv_tier := "cloud" |};
     abs_artifact_url := "gs://bucket/x/artifact.pkl";
     abs_metadata_url := "b";
     descriptor := "x" |}.

(** A value that is no entry: [None]. *)
Definition not_an_entry : Other := Builtin PNone.

(** [10 ** 5000], an [int] that [repr] refuses. *)
Definition huge : Other := Builtin (PInt (10 ^ 5000)).

(** An object whose [__repr__] raises. *)
Definition surly : Other := Surly.

End Demo.

End CacheApi.

(** * Vocabulary of the statements *)

Import Aip.

(** [o is not None] *)
Definition is_set {A : Type} (o : option A) : bool :=
  match o with
  | Some _ => true
  | None => false
  end.

(** [k2 in v[k1]] *)
Definition contains_in (k1 k2 : string) (v : pyval) : bool :=
  match getitem k1 v with
  | Some inner => contains k2 inner
  | None => false
  end.

Section Observations.

Context {RT : Runtime} {SV : Services}.

(** The name under which [_get_state_and_error] asks for the job. *)
Definition job_name (t : Task) : string :=
  "projects/" ++ project_name (config t) ++ "/jobs/" ++ job_id t.

(** The parent under which [submit] creates the job. *)
Definition job_parent (t : Task) : string :=
  "projects/" ++ project_name (config t).

(** [response.get("errorMessage", None)] *)
Definition error_of (response : list (string * pyval)) : pyval :=
  match Dict.lookup "errorMessage" response with
  | Some e => e
  | None => PNone
  end.

(** The response names the member [st] of [State]. *)
Definition reports (response : list (string * pyval)) (st : State) : Prop :=
  exists s,
    Dict.lookup "state" response = Some (PStr s)
    /\ State_getitem s = Some st.

Definition reports_executing (response : list (string * pyval)) : Prop :=
  exists st, reports response st /\ is_executing st = true.

(** From the client state [c], the next calls of [get] for [name] return
    the responses [rs], in this order, and leave the client at [c']. *)
Inductive answers (name : string)
  : AipClient -> list (list (string * pyval)) -> AipClient -> Prop :=
| answers_nil : forall c, answers name c [] c
| answers_cons : forall c r c1 rs c',
    jobs_get name c = (inr r, c1) ->
    answers name c1 rs c' ->
    answers name c (r :: rs) c'.

(** [n] rounds of the loop: a sleep of 10, then a poll. *)
Fixpoint rounds (name : string) (n : nat) : list event :=
  match n with
  | O => []
  | S n' => Sleep 10 :: Get name :: rounds name n'
  end.

(** The number of describe calls in a trace. *)
Fixpoint describe_calls (tr : list event) : nat :=
  match tr with
  | [] => O
  | Get _ :: tr' => S (describe_calls tr')
  | _ :: tr' => describe_calls tr'
  end.

(** The sleeps of a trace, by duration. *)
Fixpoint sleeps (tr : list event) : list Z :=
  match tr with
  | [] => []
  | Sleep secs :: tr' => secs :: sleeps tr'
  | _ :: tr' => sleeps tr'
  end.

(** The paths a trace opens, with the mode. *)
Fixpoint opens (tr : list event) : list (string * string) :=
  match tr with
  | [] => []
  | Open path mode :: tr' => (path, mode) :: opens tr'
  | _ :: tr' => opens tr'
  end.

(** The requests a trace creates. *)
Fixpoint creates (tr : list event) : list (pyval * string) :=
  match tr with
  | [] => []
  | Create body parent :: tr' => (body, parent) :: creates tr'
  | _ :: tr' => creates tr'
  end.

End Observations.

(** [list(v.keys())]: the keys of a dict, in insertion order. *)
Definition keys (v : pyval) : list string :=
  match v with
  | PDict d => map fst d
  | _ => []
  end.

(** The test that guards the worker block of [_ai_platform_job_spec]. *)
Definition has_workers {RT : Runtime} (t : Task) : bool :=
  match worker_count (task_config t) with
  | Some n => 0 <? n
  | None => false
  end.

(** The task [t] under another run identifier and another name
    ([attr.evolve] on the task and its config). *)
Definition with_uuid_and_name {RT : Runtime} (t : Task) (u n : string)
  : Task :=
  {| name := n;
     function := function t;
     config := {| uuid := u;
                  image_uri := image_uri (config t);
                  project_name := project_name (config t);
                  account := account (config t);
                  network := network (config t) |};
     task_config := task_config t |}.

(** The task [t] with other per-task settings. *)
Definition with_task_config {RT : Runtime} (t : Task) (tc : TaskConfig)
  : Task :=
  {| name := name t;
     function := function t;
     config := config t;
     task_config := tc |}.

(** [n] polls, each followed by a sleep of 10: the calls made while [n]
    responses in a row report an executing state. *)
Fixpoint waited (name : string) (n : nat) : list event :=
  match n with
  | O => []
  | S n' => Get name :: Sleep 10 :: waited name n'
  end.

(** A response from which [_get_state_and_error] cannot read a state, with
    the exception it raises: the key [state] is missing, or names no member
    of [State]. *)
Definition malformed {RT : Runtime} (response : list (string * pyval))
    (e : exn) : Prop :=
  (Dict.lookup "state" response = None /\ e = KeyError (PStr "state"))
  \/ (exists s,
        Dict.lookup "state" response = Some (PStr s)
        /\ State_getitem s = None
        /\ e = KeyError (PStr s)).

(** ** A provider that never finishes

    Every [get] is answered with RUNNING; the client counts the calls. *)
Module Forever.

#[export] Instance services : Services (RT := Sim.runtime) := {|
  GcsFs := unit;
  AipClient := nat;
  dump_to := fun _ _ fs => (inr tt, fs);
  load_from := fun path fs => (inl (External "FileNotFoundError" path), fs);
  jobs_create := fun _ _ c => (inr tt, c);
  jobs_get := fun _ c => (inr (Sim.reply "RUNNING"), S c)
|}.

Definition start : World :=
  @Build_World Sim.runtime services tt O [].

End Forever.

(** ** An installation without [cloudpickle] *)
Module Bare.

#[export] Instance runtime : Runtime := {|
  Callable := string;
  Obj := pyval;
  State := Sim.SimState;
  State_getitem := Sim.SimState_getitem;
  SUCCEEDED := Sim.SUCCEEDED_;
  State_eq_dec := Sim.SimState_eq_dec;
  is_executing := Sim.SimState_is_executing;
  import_optional_dependency :=
    fun name => Some (External "ImportError" name);
  repr := Sim.sim_repr
|}.

#[export] Instance services : Services (RT := runtime) := {|
  GcsFs := unit;
  AipClient := nat;
  dump_to := fun _ _ fs => (inr tt, fs);
  load_from := fun path fs => (inl (External "FileNotFoundError" path), fs);
  jobs_create := fun _ _ c => (inr tt, S c);
  jobs_get := fun name c => (inl (External "HttpError" name), c)
|}.

Definition task : Task (RT := runtime) :=
  {| name := "t"; function := "f";
     config := {| uuid := "u1"; image_uri := "gcr.io/p/img";
                  project_name := "proj";
                  account := None; network := None |};
     task_config := {| machine := "n1-standard-4";
                       worker_count := None;
                       worker_machine := None |} |}.

Definition start : World :=
  @Build_World runtime services tt O [].

End Bare.

(** ** bionic/cache_api.py: [Cache.get_entries] *)
Module CacheBrowse.

Import CacheApi.

(** The deriver and the persistent cache behind it are not part of these
    sources.  [get_ready] raises or leaves the deriver ready; the two stores
    are read off the ready deriver, each of them possibly [None]; a store
    lists the items of its inventory. *)
Class Persistence {OS : Outside} : Type := {
  Store : Type;
  (** [deriver.get_ready()] *)
  get_ready : Deriver -> exn + Deriver;
  (** [deriver._bootstrap.persistent_cache._local_store] *)
  _local_store : Deriver -> option Store;
  (** [deriver._bootstrap.persistent_cache._cloud_store] *)
  _cloud_store : Deriver -> option Store;
  (** [store.inventory.list_items()] *)
  list_items : Store -> list InventoryItem
}.

Section Browse.

Context {OS : Outside} {PS : Persistence}.

(** [[store for store in stores if store is not None]] *)
Fixpoint present (stores : list (option Store)) : list Store :=
  match stores with
  | [] => []
  | Some store :: rest => store :: present rest
  | None :: rest => present rest
  end.

(** [Cache.get_entries]; the generator it returns is given by the list of
    the entries it yields, and the cache the entries hold is the cache with
    its deriver ready. *)
Definition get_entries (self : Cache) : exn + list CacheEntry :=
  match get_ready (_deriver self) with
  | inl e => inl e
  | inr deriver =>
      let self := {| _deriver := deriver |} in
      let stores := present [_local_store deriver; _cloud_store deriver] in
      inr (flat_map
             (fun store => map (CacheEntry_init self) (list_items store))
             stores)
  end.

(** The items of a store that may be absent. *)
Definition items_of (store : option Store) : list InventoryItem :=
  match store with
  | Some s => list_items s
  | None => []
  end.

End Browse.

(** One more sample item, after [Demo.cloud_b] in the order. *)
Definition cloud_c : InventoryItem (OS := Demo.outside) :=
  @Build_InventoryItem Demo.outside
    (Build_Inventory "cloud")
    "gs://bucket/z/artifact.pkl" "c" "z".

(** A cache with a local tier only. *)
Module LocalOnly.

#[export] Instance persistence : Persistence (OS := Demo.outside) := {|
  Store := list InventoryItem;
  get_ready := fun d => inr d;
  _local_store := fun _ => Some [Demo.local_a];
  _cloud_store := fun _ => None;
  list_items := fun items => items
|}.

End LocalOnly.

End CacheBrowse.

(** * Properties *)

(** ** The job request *)

Section JobSpec.

Context {RT : Runtime}.

Ltac open_task t :=
  destruct t as [nm fn [u img prj acc net] [mach wc wm]]; simpl in *.

(** The request always has its [trainingInput] dict; the nested
    assignments of [_ai_platform_job_spec] never meet a missing key. *)
Lemma job_spec_has_trainingInput (t : Task) :
  contains "trainingInput" (_ai_platform_job_spec t) = true.
Proof.
  open_task t. unfold _ai_platform_job_spec; simpl.
  destruct net; destruct wc as [n|]; try destruct (0 <? n); reflexivity.
Qed.

(** C1.  With [worker_count > 0] and [worker_machine] set, the request's
    [trainingInput] holds [workerCount] equal to the count, [workerType]
    equal to the worker machine and [workerConfig] with the image of the
    config; with [worker_count] [None] or [<= 0], none of the three keys is
    there. *)
Theorem job_spec_worker_block (t : Task) :
  (forall n m,
      worker_count (task_config t) = Some n ->
      0 < n ->
      worker_machine (task_config t) = Some m ->
      getitem_in "trainingInput" "workerCount" (_ai_platform_job_spec t)
        = Some (PInt n)
      /\ getitem_in "trainingInput" "workerType" (_ai_platform_job_spec t)
        = Some (PStr m)
      /\ getitem_in "trainingInput" "workerConfig" (_ai_platform_job_spec t)
        = Some (PDict [("imageUri", PStr (image_uri (config t)))]))
  /\
  (worker_count (task_config t) = None
   \/ (exists n, worker_count (task_config t) = Some n /\ n <= 0) ->
   contains "trainingInput" (_ai_platform_job_spec t) = true
   /\ contains_in "trainingInput" "workerCount" (_ai_platform_job_spec t)
      = false
   /\ contains_in "trainingInput" "workerType" (_ai_platform_job_spec t)
      = false
   /\ contains_in "trainingInput" "workerConfig" (_ai_platform_job_spec t)
      = false).
Proof.
  open_task t. split.
  - intros n m Hwc Hpos Hwm. subst wc wm.
    unfold _ai_platform_job_spec; simpl.
    apply Z.ltb_lt in Hpos. rewrite Hpos.
    destruct net; repeat split; reflexivity.
  - intros Hnone.
    assert (Hoff : match wc with Some n => 0 <? n | None => false end = false).
    { destruct Hnone as [-> | [n [-> Hle]]]; [reflexivity|].
      apply Z.ltb_ge; exact Hle. }
    unfold _ai_platform_job_spec; simpl.
    destruct wc as [n|]; [rewrite Hoff|]; destruct net;
      repeat split; reflexivity.
Qed.

(** C2, as the code has it.  [network] is a key of [trainingInput] exactly
    when the config's [network] is not [None]; [serviceAccount] is always a
    key, and its value is the config's [account], [None] included. *)
Theorem job_spec_network_and_account (t : Task) :
  contains_in "trainingInput" "network" (_ai_platform_job_spec t)
    = is_set (network (config t))
  /\ getitem_in "trainingInput" "network" (_ai_platform_job_spec t)
    = option_map PStr (network (config t))
  /\ contains_in "trainingInput" "serviceAccount" (_ai_platform_job_spec t)
    = true
  /\ getitem_in "trainingInput" "serviceAccount" (_ai_platform_job_spec t)
    = Some (of_optional_str (account (config t))).
Proof.
  open_task t. unfold _ai_platform_job_spec; simpl.
  destruct net; destruct wc as [n|]; try destruct (0 <? n);
    repeat split; reflexivity.
Qed.

(** C6.  [job_id] is ["{uuid}_{name}"], and [job_id], [inputs_uri] and
    [output_uri] of two tasks agree as soon as the tasks agree on [uuid],
    [name] and [project_name], whatever their payloads and other settings.
    The three are functions from [Task] to [string]: they take no world
    and leave none, and the same task gives the same string. *)
Theorem identifiers_determined (t : Task) :
  job_id t = uuid (config t) ++ "_" ++ name t
  /\ forall t' : Task,
      uuid (config t') = uuid (config t) ->
      name t' = name t ->
      project_name (config t') = project_name (config t) ->
      job_id t' = job_id t
      /\ inputs_uri t' = inputs_uri t
      /\ output_uri t' = output_uri t.
Proof.
  split; [reflexivity|].
  intros t' Hu Hn Hp. unfold job_id, inputs_uri, output_uri.
  rewrite Hu, Hn, Hp. repeat split; reflexivity.
Qed.

(** C7.  [args] is always the three-element invocation
    [python -m bionic.aip.main] of the fixed entry-point module, followed by
    [inputs_uri] as its sole argument. *)
Theorem job_spec_args (t : Task) :
  exists invocation,
    invocation = [PStr "python"; PStr "-m"; PStr "bionic.aip.main"]
    /\ length invocation = 3%nat
    /\ getitem_in "trainingInput" "args" (_ai_platform_job_spec t)
       = Some (PList (invocation ++ [PStr (inputs_uri t)])).
Proof.
  eexists. split; [reflexivity | split; [reflexivity |]].
  open_task t. unfold _ai_platform_job_spec; simpl.
  destruct net; destruct wc as [n|]; try destruct (0 <? n); reflexivity.
Qed.

End JobSpec.

Lemma job_spec_worker_block_witness :
  (getitem_in "trainingInput" "workerCount" (_ai_platform_job_spec Sim.cluster)
     = Some (PInt 2)
   /\ getitem_in "trainingInput" "workerType" (_ai_platform_job_spec Sim.cluster)
     = Some (PStr "n1-highmem-8")
   /\ getitem_in "trainingInput" "workerConfig"
        (_ai_platform_job_spec Sim.cluster)
     = Some (PDict [("imageUri", PStr "gcr.io/p/img")]))
  /\
  (contains "trainingInput" (_ai_platform_job_spec Sim.solo) = true
   /\ contains_in "trainingInput" "workerCount" (_ai_platform_job_spec Sim.solo)
      = false
   /\ contains_in "trainingInput" "workerType" (_ai_platform_job_spec Sim.solo)
      = false
   /\ contains_in "trainingInput" "workerConfig" (_ai_platform_job_spec Sim.solo)
      = false).
Proof.
  split.
  - apply (proj1 (job_spec_worker_block Sim.cluster) 2 "n1-highmem-8");
      [reflexivity | lia | reflexivity].
  - apply (proj2 (job_spec_worker_block Sim.solo)). left. reflexivity.
Defined.

(** The claim of C2 on [serviceAccount] fails for a config without account:
    the key is there, with value [None]. *)
Lemma job_spec_account_counterexample :
  account (config Sim.solo) = None
  /\ ~ (contains_in "trainingInput" "serviceAccount"
          (_ai_platform_job_spec Sim.solo) = true
        <-> account (config Sim.solo) <> None).
Proof.
  split; [reflexivity|].
  intros [Hpresent _]. apply Hpresent; reflexivity.
Qed.

Lemma identifiers_determined_witness :
  job_id Sim.cluster = job_id Sim.solo
  /\ inputs_uri Sim.cluster = inputs_uri Sim.solo
  /\ output_uri Sim.cluster = output_uri Sim.solo.
Proof.
  apply (proj2 (identifiers_determined Sim.solo) Sim.cluster); reflexivity.
Defined.

(** ** Submission and polling *)

Section LifecycleProofs.

Context {RT : Runtime} {SV : Services}.

Lemma rounds_describe_calls (name : string) (n : nat) :
  describe_calls (rounds name n) = n.
Proof. induction n as [|n IH]; simpl; [reflexivity | now rewrite IH]. Qed.

Lemma rounds_sleeps (name : string) (n : nat) :
  sleeps (rounds name n) = repeat 10 n.
Proof. induction n as [|n IH]; simpl; [reflexivity | now rewrite IH]. Qed.

Lemma rounds_opens (name : string) (n : nat) :
  opens (rounds name n) = [].
Proof. induction n as [|n IH]; simpl; [reflexivity | exact IH]. Qed.

Lemma describe_calls_app (tr1 tr2 : list event) :
  describe_calls (tr1 ++ tr2) = (describe_calls tr1 + describe_calls tr2)%nat.
Proof.
  induction tr1 as [|e tr1 IH]; simpl; [reflexivity|].
  destruct e; simpl; rewrite IH; reflexivity.
Qed.

Lemma sleeps_app (tr1 tr2 : list event) :
  sleeps (tr1 ++ tr2) = (sleeps tr1 ++ sleeps tr2)%list.
Proof.
  induction tr1 as [|e tr1 IH]; simpl; [reflexivity|].
  destruct e; simpl; rewrite IH; reflexivity.
Qed.

Lemma opens_app (tr1 tr2 : list event) :
  opens (tr1 ++ tr2) = (opens tr1 ++ opens tr2)%list.
Proof.
  induction tr1 as [|e tr1 IH]; simpl; [reflexivity|].
  destruct e; simpl; rewrite IH; reflexivity.
Qed.

(** One poll that the service answers with a well-formed response. *)
Lemma get_state_and_error_reports (t : Task) (w : World)
    (r : list (string * pyval)) (c1 : AipClient) (st : State) :
  jobs_get (job_name t) (aip_client w) = (inr r, c1) ->
  reports r st ->
  _get_state_and_error t w
  = (Returns (st, error_of r),
     {| gcs_fs := gcs_fs w;
        aip_client := c1;
        trace := trace w ++ [Get (job_name t)] |}).
Proof.
  intros Hget [s [Hstate Hmember]].
  unfold _get_state_and_error. fold (job_name t).
  unfold bind, emit, on_client. cbn [aip_client gcs_fs trace].
  rewrite Hget. cbn [of_sum]. rewrite Hstate.
  unfold State_lookup. rewrite Hmember. reflexivity.
Qed.

(** The first poll and the loop, up to the first response that reports a
    state which is not executing. *)
Lemma polls_until_terminal (t : Task) (last : list (string * pyval))
    (st : State) (c' : AipClient) :
  reports last st ->
  is_executing st = false ->
  forall (pre : list (list (string * pyval))) (fuel : nat) (w : World),
    answers (job_name t) (aip_client w) (pre ++ [last]) c' ->
    Forall reports_executing pre ->
    (length pre <= fuel)%nat ->
    bind (_get_state_and_error t) (poll_while fuel t) w
    = (Returns (st, error_of last),
       {| gcs_fs := gcs_fs w;
          aip_client := c';
          trace := trace w ++ Get (job_name t)
                     :: rounds (job_name t) (length pre) |}).
Proof.
  intros Hlast Hterm pre.
  induction pre as [|r pre IH]; intros fuel w Hans Hexec Hfuel.
  - simpl in Hans. inversion Hans as [|c r0 c1 rs c0 Hget Hrest]; subst.
    inversion Hrest; subst.
    unfold bind at 1.
    rewrite (get_state_and_error_reports t w last c' st Hget Hlast).
    destruct fuel; cbn [poll_while fst]; rewrite Hterm; reflexivity.
  - simpl in Hans. inversion Hans as [|c r0 c1 rs c0 Hget Hrest]; subst.
    inversion Hexec as [|r0 pre0 [str [Hr Hrun]] Hexec']; subst.
    destruct fuel as [|fuel]; [simpl in Hfuel; lia|].
    unfold bind at 1.
    rewrite (get_state_and_error_reports t w r c1 str Hget Hr).
    cbn [poll_while fst]. rewrite Hrun.
    unfold bind at 1. unfold sleep, emit.
    rewrite IH; cbn [aip_client gcs_fs trace length];
      [| exact Hrest | exact Hexec' | simpl in Hfuel; lia].
    rewrite <- !app_assoc. reflexivity.
Qed.

Lemma includes_prefix (a b : string) : includes (a ++ b) a.
Proof. exists "", b. reflexivity. Qed.

Lemma append_assoc (a b c : string) : (a ++ b) ++ c = a ++ b ++ c.
Proof. induction a as [|ch a IH]; simpl; [reflexivity | now rewrite IH]. Qed.

Lemma append_empty_r (a : string) : a ++ "" = a.
Proof. induction a as [|ch a IH]; simpl; [reflexivity | now rewrite IH]. Qed.

Lemma includes_suffix (a b : string) : includes (a ++ b) b.
Proof. exists a, "". now rewrite append_empty_r. Qed.

(** [wait_for_results] is the first poll and the loop, then the part
    after the loop. *)
Lemma wait_for_results_split (fuel : nat) (t : Task) (w : World) :
  wait_for_results fuel t w
  = match bind (_get_state_and_error t) (poll_while fuel t) w with
    | (Returns se, w1) => conclude t se w1
    | (Raises e, w1) => (Raises e, w1)
    | (Unfinished, w1) => (Unfinished, w1)
    end.
Proof.
  unfold wait_for_results, bind.
  destruct (_get_state_and_error t w) as [[se|e|] w1]; reflexivity.
Qed.

(** C3.  When the polls of [wait_for_results] are answered by responses
    that report executing states, [pre], and then by one that reports a
    state which is not executing, the call polls once and then once more
    after each sleep of 10, one round per response of [pre], and leaves the
    loop at that first terminal state.  If the state is SUCCEEDED and the
    blob at [output_uri] unpickles to [obj], the call then opens
    [output_uri] for reading and returns [obj].  For
    [RUNNING, RUNNING, SUCCEEDED] that is 3 describe calls and 2 sleeps. *)
Theorem wait_for_results_polls_until_done (t : Task) (w : World)
    (pre : list (list (string * pyval))) (last : list (string * pyval))
    (c' : AipClient) (st : State) (fuel : nat) :
  answers (job_name t) (aip_client w) (pre ++ [last]) c' ->
  Forall reports_executing pre ->
  reports last st ->
  is_executing st = false ->
  (length pre <= fuel)%nat ->
  let polls := Get (job_name t) :: rounds (job_name t) (length pre) in
  wait_for_results fuel t w
  = conclude t (st, error_of last)
      {| gcs_fs := gcs_fs w; aip_client := c'; trace := trace w ++ polls |}
  /\ describe_calls polls = S (length pre)
  /\ sleeps polls = repeat 10 (length pre)
  /\ forall (obj : Obj) (fs' : GcsFs),
      st = SUCCEEDED ->
      load_from (output_uri t) (gcs_fs w) = (inr obj, fs') ->
      wait_for_results fuel t w
      = (Returns obj,
         {| gcs_fs := fs';
            aip_client := c';
            trace := trace w ++ polls ++ [Open (output_uri t) "rb"] |}).
Proof.
  intros Hans Hexec Hlast Hterm Hfuel polls. subst polls.
  assert (Hrun : wait_for_results fuel t w
                 = conclude t (st, error_of last)
                     {| gcs_fs := gcs_fs w;
                        aip_client := c';
                        trace := trace w ++ Get (job_name t)
                                   :: rounds (job_name t) (length pre) |}).
  { rewrite wait_for_results_split.
    rewrite (polls_until_terminal t last st c' Hlast Hterm
               pre fuel w Hans Hexec Hfuel).
    reflexivity. }
  split; [exact Hrun | split; [| split]].
  - cbn [describe_calls]. rewrite rounds_describe_calls. reflexivity.
  - cbn [sleeps]. apply rounds_sleeps.
  - intros obj fs' -> Hload. rewrite Hrun.
    unfold conclude.
    destruct (State_eq_dec SUCCEEDED SUCCEEDED) as [_|Hne];
      [| now contradiction Hne].
    unfold bind, emit, on_fs. cbn [aip_client gcs_fs trace].
    rewrite Hload. cbn [of_sum].
    rewrite <- app_assoc. reflexivity.
Qed.

(** C4.  When the polls are answered by responses that report executing
    states and then by one that reports a state which is neither executing
    nor SUCCEEDED, [wait_for_results] raises [AipError] with the message
    [job_id + ": " + str(error)]: it includes the job id, and the error
    message of the response when the provider gave one.  No blob is
    opened, and the object store is as it was. *)
Theorem wait_for_results_failed (t : Task) (w : World)
    (pre : list (list (string * pyval))) (last : list (string * pyval))
    (c' : AipClient) (st : State) (fuel : nat) :
  answers (job_name t) (aip_client w) (pre ++ [last]) c' ->
  Forall reports_executing pre ->
  reports last st ->
  is_executing st = false ->
  st <> SUCCEEDED ->
  (length pre <= fuel)%nat ->
  let calls := Get (job_name t) :: rounds (job_name t) (length pre) in
  let msg := job_id t ++ ": " ++ py_str (error_of last) in
  wait_for_results fuel t w
  = (Raises (AipError msg),
     {| gcs_fs := gcs_fs w; aip_client := c'; trace := trace w ++ calls |})
  /\ includes msg (job_id t)
  /\ (forall m, Dict.lookup "errorMessage" last = Some (PStr m) ->
                includes msg m)
  /\ opens calls = [].
Proof.
  intros Hans Hexec Hlast Hterm Hfail Hfuel calls msg. subst calls msg.
  split; [| split; [| split]].
  - rewrite wait_for_results_split.
    rewrite (polls_until_terminal t last st c' Hlast Hterm
               pre fuel w Hans Hexec Hfuel).
    unfold conclude.
    destruct (State_eq_dec st SUCCEEDED) as [Heq|_];
      [now contradiction Hfail |].
    reflexivity.
  - apply includes_prefix.
  - intros m Hm. unfold error_of. rewrite Hm. cbn [py_str].
    rewrite <- append_assoc. apply includes_suffix.
  - cbn [opens]. apply rounds_opens.
Qed.



End LifecycleProofs.

Lemma wait_for_results_polls_until_done_witness :
  describe_calls
    [Get "projects/proj/jobs/u1_t"; Sleep 10;
     Get "projects/proj/jobs/u1_t"; Sleep 10;
     Get "projects/proj/jobs/u1_t"] = 3%nat
  /\ sleeps
       [Get "projects/proj/jobs/u1_t"; Sleep 10;
        Get "projects/proj/jobs/u1_t"; Sleep 10;
        Get "projects/proj/jobs/u1_t"] = [10; 10]
  /\ wait_for_results 2 Sim.solo Sim.succeeding
     = (Returns (PInt 42),
        Sim.mk Sim.with_output true [] 0 []
          [Get "projects/proj/jobs/u1_t"; Sleep 10;
           Get "projects/proj/jobs/u1_t"; Sleep 10;
           Get "projects/proj/jobs/u1_t";
           Open "gs://proj/bionic/u1/t-output.cloudpickle" "rb"]).
Proof.
  destruct (wait_for_results_polls_until_done Sim.solo Sim.succeeding
              [Sim.reply "RUNNING"; Sim.reply "RUNNING"]
              (Sim.reply "SUCCEEDED")
              {| Sim.replies := []; Sim.quota := 0; Sim.created := [] |}
              Sim.SUCCEEDED_ 2) as [_ [Hcalls [Hsleeps Hresult]]].
  - repeat (eapply answers_cons; [reflexivity|]). apply answers_nil.
  - repeat constructor; exists Sim.RUNNING;
      (split; [exists "RUNNING"; split; reflexivity | reflexivity]).
  - exists "SUCCEEDED". split; reflexivity.
  - reflexivity.
  - simpl. lia.
  - split; [exact Hcalls | split; [exact Hsleeps |]].
    apply (Hresult (PInt 42) (gcs_fs Sim.succeeding)); reflexivity.
Defined.

Lemma wait_for_results_failed_witness :
  wait_for_results 1 Sim.solo Sim.failing
  = (Raises (AipError "u1_t: oom"),
     Sim.mk Sim.with_output true [] 0 []
       [Get "projects/proj/jobs/u1_t"; Sleep 10;
        Get "projects/proj/jobs/u1_t"])
  /\ includes "u1_t: oom" "u1_t"
  /\ includes "u1_t: oom" "oom"
  /\ opens [Get "projects/proj/jobs/u1_t"; Sleep 10;
            Get "projects/proj/jobs/u1_t"] = [].
Proof.
  destruct (wait_for_results_failed Sim.solo Sim.failing
              [Sim.reply "RUNNING"] (Sim.failed_reply "oom")
              {| Sim.replies := []; Sim.quota := 0; Sim.created := [] |}
              Sim.FAILED 1) as [Hrun [Hid [Hmsg Hopens]]].
  - repeat (eapply answers_cons; [reflexivity|]). apply answers_nil.
  - repeat constructor; exists Sim.RUNNING;
      (split; [exists "RUNNING"; split; reflexivity | reflexivity]).
  - exists "FAILED". split; reflexivity.
  - reflexivity.
  - discriminate.
  - simpl. lia.
  - split; [exact Hrun | split; [exact Hid | split; [| exact Hopens]]].
    apply (Hmsg "oom"). reflexivity.
Defined.




(** ** Cache entries *)

Import CacheApi.

Section EntryProofs.

Context {OS : Outside}.

(** C9.  Two entries made by [CacheEntry(cache=, inv_item=)] are equal
    under [==] exactly when their metadata URLs are equal, have the same
    hash when their metadata URLs are equal, whatever their tiers,
    artifact URLs and descriptors, and [<] between them is [<] between
    their metadata URLs. *)
Theorem cache_entry_order_is_metadata_url (c1 c2 : Cache)
    (i1 i2 : InventoryItem) :
  let e1 := CacheEntry_init c1 i1 in
  let e2 := CacheEntry_init c2 i2 in
  (op_eq e1 (AnEntry e2) = inr (RBool true)
   <-> metadata_url e1 = metadata_url e2)
  /\ op_eq e1 (AnEntry e2)
     = inr (RBool (String.eqb (metadata_url e1) (metadata_url e2)))
  /\ (metadata_url e1 = metadata_url e2 -> __hash__ e1 = __hash__ e2)
  /\ op_lt e1 (AnEntry e2)
     = inr (RBool (String.ltb (metadata_url e1) (metadata_url e2))).
Proof.
  intros e1 e2. subst e1 e2.
  unfold op_eq, op_lt, __eq__, __lt__, __hash__; cbn [CacheEntry_init
    _comparison_key metadata_url].
  split; [| split; [reflexivity | split; [| reflexivity]]].
  - split.
    + intros [= Heq]. apply String.eqb_eq. exact Heq.
    + intros Heq. apply String.eqb_eq in Heq. rewrite Heq. reflexivity.
  - intros ->. reflexivity.
Qed.

(** C10, as the code has it.  For [x] that is no [CacheEntry] and whose
    [repr] returns, [e < x] returns: the value is a [TypeError] instance,
    which is true as a condition, and nothing is raised.  When [repr(x)]
    raises, [e < x] raises that exception, as the message is formatted
    before the return.  [e == x] returns [False] for every such [x]. *)
Theorem lt_with_non_entry_returns_the_error (e : CacheEntry) (x : Other) :
  (forall s,
      repr_other x = inr s ->
      op_lt e (NotAnEntry x)
      = inr (RExceptionObject
               (TypeError ("Can't compare " ++ __repr__ e
                             ++ " with non-CacheEntry " ++ s)))
      /\ (forall v, op_lt e (NotAnEntry x) = inr v -> truthy v = true)
      /\ (forall err, op_lt e (NotAnEntry x) <> inl err))
  /\ (forall err, repr_other x = inl err -> op_lt e (NotAnEntry x) = inl err)
  /\ op_eq e (NotAnEntry x) = inr (RBool false).
Proof.
  unfold op_lt, op_eq, __lt__, __eq__.
  split; [| split; [| reflexivity]].
  - intros s Hrepr. rewrite Hrepr.
    split; [reflexivity | split].
    + intros v [= <-]. reflexivity.
    + intros err. discriminate.
  - intros err Hrepr. rewrite Hrepr. reflexivity.
Qed.

End EntryProofs.

Lemma cache_entry_order_is_metadata_url_witness :
  tier (CacheEntry_init Demo.the_cache Demo.local_a)
    <> tier (CacheEntry_init Demo.the_cache Demo.cloud_a)
  /\ op_eq (CacheEntry_init Demo.the_cache Demo.local_a)
       (AnEntry (CacheEntry_init Demo.the_cache Demo.cloud_a))
     = inr (RBool true)
  /\ __hash__ (CacheEntry_init Demo.the_cache Demo.local_a)
     = __hash__ (CacheEntry_init Demo.the_cache Demo.cloud_a)
  /\ op_lt (CacheEntry_init Demo.the_cache Demo.local_a)
       (AnEntry (CacheEntry_init Demo.the_cache Demo.cloud_b))
     = inr (RBool true).
Proof.
  split; [discriminate|].
  destruct (cache_entry_order_is_metadata_url Demo.the_cache Demo.the_cache
              Demo.local_a Demo.cloud_a) as [Heq [_ [Hhash _]]].
  destruct (cache_entry_order_is_metadata_url Demo.the_cache Demo.the_cache
              Demo.local_a Demo.cloud_b) as [_ [_ [_ Hlt]]].
  split; [apply Heq; reflexivity | split; [apply Hhash; reflexivity |]].
  exact Hlt.
Defined.

Lemma lt_with_non_entry_returns_the_error_witness :
  op_lt (CacheEntry_init Demo.the_cache Demo.local_a)
    (NotAnEntry Demo.not_an_entry)
  = inr (RExceptionObject
           (TypeError
              "Can't compare CacheEntry(metadata_url='a') with non-CacheEntry None"))
  /\ truthy (RExceptionObject
               (TypeError
                  "Can't compare CacheEntry(metadata_url='a') with non-CacheEntry None"))
     = true
  /\ op_lt (CacheEntry_init Demo.the_cache Demo.local_a)
       (NotAnEntry Demo.surly)
     = inl (External "RuntimeError" "no repr").
Proof.
  destruct (lt_with_non_entry_returns_the_error
              (CacheEntry_init Demo.the_cache Demo.local_a) Demo.not_an_entry)
    as [Hreturns _].
  destruct (Hreturns "None" eq_refl) as [Hlt [Htruthy _]].
  destruct (lt_with_non_entry_returns_the_error
              (CacheEntry_init Demo.the_cache Demo.local_a) Demo.surly)
    as [_ [Hraises _]].
  split; [exact Hlt | split; [apply Htruthy; exact Hlt |]].
  apply Hraises. reflexivity.
Defined.

(** The claim of C10 fails for an operand whose [repr] raises: [e < x]
    raises for the int [10 ** 5000] and for an object whose [__repr__]
    raises, so it does not hold that [e < x] never raises. *)
Lemma lt_with_non_entry_counterexample :
  op_lt (CacheEntry_init Demo.the_cache Demo.local_a) (NotAnEntry Demo.huge)
  = inl (External "ValueError"
           "Exceeds the limit (4300 digits) for integer string conversion")
  /\ op_lt (CacheEntry_init Demo.the_cache Demo.local_a)
       (NotAnEntry Demo.surly)
     = inl (External "RuntimeError" "no repr")
  /\ ~ (forall (e : @CacheEntry Demo.outside) (x : @Other Demo.outside)
                 (err : exn),
          op_lt e (NotAnEntry x) <> inl err).
Proof.
  assert (Hhuge : op_lt (CacheEntry_init Demo.the_cache Demo.local_a)
                    (NotAnEntry Demo.huge)
                  = inl (External "ValueError"
                           "Exceeds the limit (4300 digits) for integer string conversion"))
    by (vm_compute; reflexivity).
  split; [exact Hhuge | split; [reflexivity |]].
  intros Hnever.
  exact (Hnever (CacheEntry_init Demo.the_cache Demo.local_a) Demo.huge _
           Hhuge).
Qed.

(** * Further properties *)

(** ** Strings *)

Lemma append_inv_head (a b c : string) : a ++ b = a ++ c -> b = c.
Proof.
  induction a as [|ch a IH]; simpl; intros Heq; [exact Heq|].
  injection Heq as Heq. exact (IH Heq).
Qed.

Lemma length_append (a b : string) :
  String.length (a ++ b) = (String.length a + String.length b)%nat.
Proof. induction a as [|ch a IH]; simpl; [reflexivity | now rewrite IH]. Qed.

Lemma append_same_length (a b c d : string) :
  String.length a = String.length b ->
  a ++ c = b ++ d ->
  a = b /\ c = d.
Proof.
  revert b. induction a as [|ch a IH]; intros [|ch' b] Hlen Heq;
    simpl in *; try discriminate.
  - split; [reflexivity | exact Heq].
  - injection Hlen as Hlen. injection Heq as Hch Heq.
    destruct (IH b Hlen Heq) as [-> ->]. subst ch'. split; reflexivity.
Qed.

(** Two strings with equal ends of the same length. *)
Lemma append_same_suffix_length (a b c d : string) :
  String.length c = String.length d ->
  a ++ c = b ++ d ->
  a = b /\ c = d.
Proof.
  intros Hlen Heq. apply append_same_length; [| exact Heq].
  apply (f_equal String.length) in Heq.
  rewrite !length_append in Heq. lia.
Qed.

Lemma append_inv_tail (a b c : string) : a ++ c = b ++ c -> a = b.
Proof.
  intros Heq.
  exact (proj1 (append_same_suffix_length a b c c eq_refl Heq)).
Qed.

(** ** More on the job request and the identifiers *)

Section MoreJobSpec.

Context {RT : Runtime}.

Ltac open_task t :=
  destruct t as [nm fn [u img prj acc net] [mach wc wm]]; simpl in *.

(** X1.  The fields that [_ai_platform_job_spec] sets for every task, whatever
    the optional settings: the job id, the label of the run, the master
    machine and its image, the region, the scale tier, and the empty package
    list and module name. *)
Theorem job_spec_fixed_fields (t : Task) :
  getitem "jobId" (_ai_platform_job_spec t) = Some (PStr (job_id t))
  /\ getitem_in "labels" "job" (_ai_platform_job_spec t)
     = Some (PStr (uuid (config t)))
  /\ getitem_in "trainingInput" "masterType" (_ai_platform_job_spec t)
     = Some (PStr (machine (task_config t)))
  /\ getitem_in "trainingInput" "masterConfig" (_ai_platform_job_spec t)
     = Some (PDict [("imageUri", PStr (image_uri (config t)))])
  /\ getitem_in "trainingInput" "region" (_ai_platform_job_spec t)
     = Some (PStr "us-west1")
  /\ getitem_in "trainingInput" "scaleTier" (_ai_platform_job_spec t)
     = Some (PStr "CUSTOM")
  /\ getitem_in "trainingInput" "packageUris" (_ai_platform_job_spec t)
     = Some (PList [])
  /\ getitem_in "trainingInput" "pythonModule" (_ai_platform_job_spec t)
     = Some (PStr "").
Proof.
  open_task t. unfold _ai_platform_job_spec; simpl.
  destruct net; destruct wc as [n|]; try destruct (0 <? n);
    repeat split; reflexivity.
Qed.

(** X2.  The request has the keys [jobId], [labels] and [trainingInput] and no
    other.  [trainingInput] has its eight fixed keys, then [network] if the
    config has a network, then the three worker keys if [worker_count] is
    positive, in this order, and no key twice. *)
Theorem job_spec_keys (t : Task) :
  keys (_ai_platform_job_spec t) = ["jobId"; "labels"; "trainingInput"]
  /\ exists training_input,
      getitem "trainingInput" (_ai_platform_job_spec t) = Some training_input
      /\ keys training_input
         = (["serviceAccount"; "masterType"; "masterConfig"; "args";
             "packageUris"; "region"; "pythonModule"; "scaleTier"]
              ++ (if is_set (network (config t)) then ["network"] else [])
              ++ (if has_workers t
                  then ["workerCount"; "workerType"; "workerConfig"]
                  else []))%list
      /\ NoDup (keys training_input).
Proof.
  open_task t. unfold _ai_platform_job_spec, has_workers; simpl.
  destruct net; destruct wc as [n|]; try destruct (0 <? n); simpl;
    (split; [reflexivity |]); eexists; (split; [reflexivity |]);
    (split; [reflexivity |]);
    repeat (constructor; [simpl; intuition discriminate |]); constructor.
Qed.

Lemma inputs_uri_differs_from_output_uri (t t' : Task) :
  inputs_uri t <> output_uri t'.
Proof.
  unfold inputs_uri, output_uri. intros Heq.
  rewrite <- !append_assoc in Heq.
  apply append_same_suffix_length in Heq; [| reflexivity].
  destruct Heq as [_ Hsuffix]. discriminate Hsuffix.
Qed.

(** X3.  No task reads its input where any task writes its output: an
    [inputs_uri] is never an [output_uri], and the two end in
    [-inputs.cloudpickle] and [-output.cloudpickle]. *)
Theorem inputs_uri_is_no_output_uri (t t' : Task) :
  inputs_uri t <> output_uri t'
  /\ (exists stem, inputs_uri t = stem ++ "-inputs.cloudpickle"
                   /\ output_uri t = stem ++ "-output.cloudpickle").
Proof.
  split; [apply inputs_uri_differs_from_output_uri |].
  exists ("gs://" ++ project_name (config t) ++ "/bionic/"
            ++ uuid (config t) ++ "/" ++ name t).
  unfold inputs_uri, output_uri. rewrite !append_assoc.
  split; reflexivity.
Qed.

(** X4.  Within a run the name tells the tasks apart: two tasks of the same
    [uuid] with the same [job_id] have the same name, and so have two tasks
    of the same [uuid] and project with the same [inputs_uri] or the same
    [output_uri]. *)
Theorem identifiers_separate_names (t1 t2 : Task) :
  uuid (config t1) = uuid (config t2) ->
  (job_id t1 = job_id t2 -> name t1 = name t2)
  /\ (project_name (config t1) = project_name (config t2) ->
      inputs_uri t1 = inputs_uri t2 \/ output_uri t1 = output_uri t2 ->
      name t1 = name t2).
Proof.
  intros Hu. split.
  - unfold job_id. rewrite Hu. intros Heq.
    apply append_inv_head in Heq. apply append_inv_head in Heq. exact Heq.
  - intros Hp. unfold inputs_uri, output_uri. rewrite Hu, Hp.
    intros [Heq | Heq];
      do 5 apply append_inv_head in Heq;
      apply append_inv_tail in Heq; exact Heq.
Qed.

(** X5.  Across runs [job_id] does not tell tasks apart: the task named [n] in
    the run [u_a] and the task named [a_n] in the run [u] are different
    tasks with one and the same job id. *)
Theorem job_id_collides_across_runs (t : Task) (u a n : string) :
  job_id (with_uuid_and_name t (u ++ "_" ++ a) n)
  = job_id (with_uuid_and_name t u (a ++ "_" ++ n))
  /\ name (with_uuid_and_name t (u ++ "_" ++ a) n)
     <> name (with_uuid_and_name t u (a ++ "_" ++ n))
  /\ uuid (config (with_uuid_and_name t (u ++ "_" ++ a) n))
     <> uuid (config (with_uuid_and_name t u (a ++ "_" ++ n))).
Proof.
  unfold job_id; cbn [with_uuid_and_name name config uuid].
  split; [| split].
  - rewrite !append_assoc. reflexivity.
  - intros Heq. apply (f_equal String.length) in Heq.
    rewrite !length_append in Heq. simpl in Heq. lia.
  - intros Heq. apply (f_equal String.length) in Heq.
    rewrite !length_append in Heq. simpl in Heq. lia.
Qed.

(** X6.  Without workers the worker settings do not show: two tasks of the same
    name, config and master machine, neither with a positive
    [worker_count], get the same request, whatever their payloads, their
    [worker_machine] and their [worker_count]. *)
Theorem job_spec_ignores_idle_worker_settings (t t' : Task) :
  name t = name t' ->
  config t = config t' ->
  machine (task_config t) = machine (task_config t') ->
  has_workers t = false ->
  has_workers t' = false ->
  _ai_platform_job_spec t = _ai_platform_job_spec t'.
Proof.
  destruct t as [nm fn cfg [mach wc wm]].
  destruct t' as [nm' fn' cfg' [mach' wc' wm']].
  unfold has_workers; cbn [name config task_config machine worker_count].
  intros -> -> -> Hidle Hidle'.
  unfold _ai_platform_job_spec, job_id, inputs_uri;
    cbn [name config task_config machine worker_count worker_machine].
  destruct wc as [n|]; [rewrite Hidle |];
    (destruct wc' as [n'|]; [rewrite Hidle' |]); reflexivity.
Qed.

End MoreJobSpec.

Lemma job_spec_ignores_idle_worker_settings_witness :
  _ai_platform_job_spec
    (with_task_config Sim.solo
       {| machine := "n1-standard-4";
          worker_count := Some 0;
          worker_machine := Some "n1-highmem-8" |})
  = _ai_platform_job_spec Sim.solo.
Proof.
  apply job_spec_ignores_idle_worker_settings; reflexivity.
Defined.

Lemma identifiers_separate_names_witness :
  name Sim.cluster = name Sim.solo /\ name Sim.shapeless = name Sim.solo.
Proof.
  split.
  - apply (proj1 (identifiers_separate_names Sim.cluster Sim.solo eq_refl)).
    reflexivity.
  - apply (proj2 (identifiers_separate_names Sim.shapeless Sim.solo eq_refl));
      [reflexivity | left; reflexivity].
Defined.

(** ** More on submission and polling *)

Section MoreLifecycle.

Context {RT : Runtime} {SV : Services}.

(** A poll makes one [get] call, touches nothing but the client, and
    returns or raises. *)
Lemma get_state_and_error_effect (t : Task) (w : World) :
  exists r c1,
    _get_state_and_error t w
    = (r, {| gcs_fs := gcs_fs w;
             aip_client := c1;
             trace := trace w ++ [Get (job_name t)] |})
    /\ r <> Unfinished.
Proof.
  unfold _get_state_and_error. fold (job_name t).
  unfold bind, emit, on_client. cbn [aip_client gcs_fs trace].
  destruct (jobs_get (job_name t) (aip_client w)) as [[e|r] c1];
    cbn [of_sum].
  - exists (Raises e), c1. split; [reflexivity | discriminate].
  - destruct (Dict.lookup "state" r) as [v|].
    + destruct (State_lookup v) as [e|st].
      * exists (Raises e), c1. split; [reflexivity | discriminate].
      * eexists (Returns _), c1. split; [reflexivity | discriminate].
    + eexists (Raises _), c1. split; [reflexivity | discriminate].
Qed.

(** The loop makes whole rounds, at most [fuel] of them, and is cut short
    by the bound only after [fuel] rounds. *)
Lemma poll_while_effect (t : Task) (fuel : nat) :
  forall (se : State * pyval) (w : World),
  exists r c1 k,
    poll_while fuel t se w
    = (r, {| gcs_fs := gcs_fs w;
             aip_client := c1;
             trace := trace w ++ rounds (job_name t) k |})
    /\ (k <= fuel)%nat
    /\ (r = Unfinished -> k = fuel).
Proof.
  induction fuel as [|fuel IH]; intros se w.
  - cbn [poll_while]. destruct (is_executing (fst se)).
    + exists Unfinished, (aip_client w), O. cbn [rounds].
      rewrite app_nil_r. destruct w; repeat split; reflexivity.
    + exists (Returns se), (aip_client w), O. cbn [rounds].
      rewrite app_nil_r. destruct w.
      split; [reflexivity | split; [lia | discriminate]].
  - cbn [poll_while]. destruct (is_executing (fst se)).
    + unfold bind at 1. unfold sleep, emit.
      unfold bind at 1.
      destruct (get_state_and_error_effect t
                  {| gcs_fs := gcs_fs w;
                     aip_client := aip_client w;
                     trace := trace w ++ [Sleep 10] |})
        as [r1 [c1 [Hget Hfin]]].
      rewrite Hget. cbn [gcs_fs aip_client trace].
      destruct r1 as [se'|e|]; [| | now contradiction Hfin].
      * destruct (IH se' {| gcs_fs := gcs_fs w;
                            aip_client := c1;
                            trace := (trace w ++ [Sleep 10])
                                       ++ [Get (job_name t)] |})
          as [r [c2 [k [Hrun [Hk Hcut]]]]].
        rewrite Hrun. cbn [gcs_fs aip_client trace].
        exists r, c2, (S k). cbn [rounds].
        rewrite <- !app_assoc.
        split; [reflexivity | split; [lia |]].
        intros Hr. rewrite (Hcut Hr). reflexivity.
      * exists (Raises e), c1, 1%nat. cbn [rounds].
        rewrite <- !app_assoc.
        split; [reflexivity | split; [lia | discriminate]].
    + exists (Returns se), (aip_client w), O. cbn [rounds].
      rewrite app_nil_r. destruct w.
      split; [reflexivity | split; [lia | discriminate]].
Qed.

Lemma wait_for_results_shape (fuel : nat) (t : Task) (w : World) :
  exists k tail,
    trace (snd (wait_for_results fuel t w))
    = (trace w ++ Get (job_name t) :: rounds (job_name t) k ++ tail)%list
    /\ (k <= fuel)%nat
    /\ (tail = [] \/ tail = [Open (output_uri t) "rb"])
    /\ (tail = [] ->
        gcs_fs (snd (wait_for_results fuel t w)) = gcs_fs w)
    /\ (fst (wait_for_results fuel t w) = Unfinished ->
        k = fuel /\ tail = [])
    /\ (forall obj, fst (wait_for_results fuel t w) = Returns obj ->
        tail = [Open (output_uri t) "rb"]).
Proof.
  assert (Hno : forall (X : Type) (a b : outcome X) (P : Prop),
             a <> b -> a = b -> P)
    by (intros X a b P Hne Heq; contradiction (Hne Heq)).
  remember (wait_for_results fuel t w) as run eqn:Erun.
  rewrite wait_for_results_split in Erun. unfold bind in Erun.
  destruct (get_state_and_error_effect t w) as [r0 [c0 [Hget Hfin]]].
  rewrite Hget in Erun.
  destruct r0 as [se|e|]; [| | now contradiction Hfin].
  - destruct (poll_while_effect t fuel se
                {| gcs_fs := gcs_fs w; aip_client := c0;
                   trace := trace w ++ [Get (job_name t)] |})
      as [r [c1 [k [Hrun [Hk Hcut]]]]].
    rewrite Hrun in Erun. cbn [gcs_fs aip_client trace] in Erun.
    destruct r as [[st err]|e|].
    + unfold conclude in Erun.
      destruct (State_eq_dec st SUCCEEDED) as [_|_].
      * exists k, [Open (output_uri t) "rb"].
        unfold bind, emit, on_fs in Erun.
        cbn [gcs_fs aip_client trace] in Erun.
        destruct (load_from (output_uri t) (gcs_fs w)) as [[e|obj] fs'];
          cbn [of_sum] in Erun; subst run; cbn [fst snd trace gcs_fs];
          rewrite <- !app_assoc;
          (split; [reflexivity |]); (split; [exact Hk |]);
          (split; [right; reflexivity |]);
          (split; [intros Hnil; discriminate Hnil |]);
          (split; [apply Hno; discriminate | intros; reflexivity]).
      * exists k, []. unfold raise in Erun. subst run.
        cbn [fst snd trace gcs_fs].
        rewrite <- !app_assoc, app_nil_r.
        split; [reflexivity |]. split; [exact Hk |].
        split; [left; reflexivity |]. split; [reflexivity |].
        split; [| intros obj]; apply Hno; discriminate.
    + exists k, []. subst run. cbn [fst snd trace gcs_fs].
      rewrite <- !app_assoc, app_nil_r.
      split; [reflexivity |]. split; [exact Hk |].
      split; [left; reflexivity |]. split; [reflexivity |].
      split; [| intros obj]; apply Hno; discriminate.
    + exists k, []. subst run. cbn [fst snd trace gcs_fs].
      rewrite <- !app_assoc, app_nil_r.
      split; [reflexivity |]. split; [exact Hk |].
      split; [left; reflexivity |]. split; [reflexivity |].
      split; [| intros obj; apply Hno; discriminate].
      intros _. split; [apply Hcut; reflexivity | reflexivity].
  - exists O, []. subst run. cbn [fst snd trace gcs_fs rounds].
    split; [reflexivity |]. split; [lia |].
    split; [left; reflexivity |]. split; [reflexivity |].
    split; [| intros obj]; apply Hno; discriminate.
Qed.

Lemma rounds_creates (name : string) (n : nat) :
  creates (rounds name n) = [].
Proof. induction n as [|n IH]; simpl; [reflexivity | exact IH]. Qed.

Lemma creates_app (tr1 tr2 : list event) :
  creates (tr1 ++ tr2) = (creates tr1 ++ creates tr2)%list.
Proof.
  induction tr1 as [|e tr1 IH]; simpl; [reflexivity|].
  destruct e; simpl; rewrite IH; reflexivity.
Qed.

(** X7.  What [wait_for_results] does in any world, for any bound.  It creates
    no job; the only blob it may open is [output_uri], for reading; every
    sleep lasts 10; it describes the job once more than it sleeps, and
    sleeps at most [fuel] times.  Unless it opens the output the object
    store is as it was.  It returns only after opening the output, and the
    bound cuts it short only after [fuel] sleeps. *)
Theorem wait_for_results_calls (fuel : nat) (t : Task) (w : World) :
  exists added,
    trace (snd (wait_for_results fuel t w)) = (trace w ++ added)%list
    /\ creates added = []
    /\ (opens added = [] \/ opens added = [(output_uri t, "rb")])
    /\ sleeps added = repeat 10 (length (sleeps added))
    /\ describe_calls added = S (length (sleeps added))
    /\ (length (sleeps added) <= fuel)%nat
    /\ (opens added = [] ->
        gcs_fs (snd (wait_for_results fuel t w)) = gcs_fs w)
    /\ (fst (wait_for_results fuel t w) = Unfinished ->
        length (sleeps added) = fuel /\ opens added = [])
    /\ (forall obj, fst (wait_for_results fuel t w) = Returns obj ->
        opens added = [(output_uri t, "rb")]).
Proof.
  destruct (wait_for_results_shape fuel t w)
    as [k [tail [Htrace [Hk [Htail [Hstore [Hcut Hret]]]]]]].
  exists (Get (job_name t) :: rounds (job_name t) k ++ tail)%list.
  assert (Hsleeps : sleeps (Get (job_name t) :: rounds (job_name t) k ++ tail)
                    = repeat 10 k).
  { cbn [sleeps]. rewrite sleeps_app, rounds_sleeps.
    destruct Htail as [-> | ->]; simpl; apply app_nil_r. }
  assert (Hopens : opens (Get (job_name t) :: rounds (job_name t) k ++ tail)
                   = opens tail).
  { cbn [opens]. rewrite opens_app, rounds_opens. reflexivity. }
  rewrite Hsleeps, Hopens, repeat_length.
  split; [exact Htrace |].
  split; [cbn [creates]; rewrite creates_app, rounds_creates;
          destruct Htail as [-> | ->]; reflexivity |].
  split; [destruct Htail as [-> | ->]; [left | right]; reflexivity |].
  split; [reflexivity |].
  split; [cbn [describe_calls];
          rewrite describe_calls_app, rounds_describe_calls;
          destruct Htail as [-> | ->]; simpl; lia |].
  split; [exact Hk |].
  split; [intros Hnone; apply Hstore;
          destruct Htail as [-> | ->]; [reflexivity | discriminate Hnone] |].
  split.
  - intros Hun. destruct (Hcut Hun) as [-> ->]. split; reflexivity.
  - intros obj Hobj. rewrite (Hret obj Hobj). reflexivity.
Qed.

(** While the responses report executing states the call goes on: after
    [pre] it is where it would be had it been started, with what is left of
    the bound, in the world those polls and sleeps leave. *)
Lemma polls_skip_executing (t : Task) :
  forall (pre : list (list (string * pyval))) (fuel : nat) (w : World)
         (c1 : AipClient),
    answers (job_name t) (aip_client w) pre c1 ->
    Forall reports_executing pre ->
    (length pre <= fuel)%nat ->
    bind (_get_state_and_error t) (poll_while fuel t) w
    = bind (_get_state_and_error t) (poll_while (fuel - length pre) t)
        {| gcs_fs := gcs_fs w;
           aip_client := c1;
           trace := trace w ++ waited (job_name t) (length pre) |}.
Proof.
  induction pre as [|r pre IH]; intros fuel w c1 Hans Hexec Hfuel.
  - inversion Hans; subst. cbn [length waited].
    rewrite Nat.sub_0_r, app_nil_r. destruct w; reflexivity.
  - inversion Hans as [|c r0 c0 rs c' Hget Hrest]; subst.
    inversion Hexec as [|r0 pre0 [str [Hr Hrun]] Hexec']; subst.
    destruct fuel as [|fuel]; [simpl in Hfuel; lia|].
    unfold bind at 1.
    rewrite (get_state_and_error_reports t w r c0 str Hget Hr).
    cbn [poll_while fst]. rewrite Hrun.
    unfold bind at 1. unfold sleep, emit.
    rewrite (IH fuel _ c1);
      cbn [aip_client gcs_fs trace length];
      [| exact Hrest | exact Hexec' | simpl in Hfuel; lia].
    cbn [waited Nat.sub]. rewrite <- !app_assoc. reflexivity.
Qed.

(** X8.  A failure to describe the job is not retried.  When the polls are
    answered by responses that report executing states and the next [get]
    raises, [wait_for_results] raises that exception; the failed call is its
    last, and the object store is as it was. *)
Theorem describe_failure_ends_the_wait (t : Task) (w : World)
    (pre : list (list (string * pyval))) (c1 c' : AipClient) (e : exn)
    (fuel : nat) :
  answers (job_name t) (aip_client w) pre c1 ->
  Forall reports_executing pre ->
  jobs_get (job_name t) c1 = (inl e, c') ->
  (length pre <= fuel)%nat ->
  wait_for_results fuel t w
  = (Raises e,
     {| gcs_fs := gcs_fs w;
        aip_client := c';
        trace := trace w ++ waited (job_name t) (length pre)
                   ++ [Get (job_name t)] |}).
Proof.
  intros Hans Hexec Hget Hfuel.
  rewrite wait_for_results_split.
  rewrite (polls_skip_executing t pre fuel w c1 Hans Hexec Hfuel).
  unfold bind at 1. unfold _get_state_and_error. fold (job_name t).
  unfold bind, emit, on_client. cbn [aip_client gcs_fs trace].
  rewrite Hget. cbn [of_sum]. rewrite <- app_assoc. reflexivity.
Qed.

(** X9.  A response that has no [state], or whose [state] names no member of
    [State], ends the wait with [KeyError] on the missing key or on the
    unknown name, whatever else the response holds. *)
Theorem malformed_response_raises_KeyError (t : Task) (w : World)
    (pre : list (list (string * pyval))) (r : list (string * pyval))
    (c1 c' : AipClient) (e : exn) (fuel : nat) :
  answers (job_name t) (aip_client w) pre c1 ->
  Forall reports_executing pre ->
  jobs_get (job_name t) c1 = (inr r, c') ->
  malformed r e ->
  (length pre <= fuel)%nat ->
  (exists key, e = KeyError (PStr key))
  /\ wait_for_results fuel t w
     = (Raises e,
        {| gcs_fs := gcs_fs w;
           aip_client := c';
           trace := trace w ++ waited (job_name t) (length pre)
                      ++ [Get (job_name t)] |}).
Proof.
  intros Hans Hexec Hget Hbad Hfuel. split.
  - destruct Hbad as [[_ ->] | [s [_ [_ ->]]]]; eexists; reflexivity.
  - rewrite wait_for_results_split.
    rewrite (polls_skip_executing t pre fuel w c1 Hans Hexec Hfuel).
    unfold bind at 1. unfold _get_state_and_error. fold (job_name t).
    unfold bind, emit, on_client. cbn [aip_client gcs_fs trace].
    rewrite Hget. cbn [of_sum].
    destruct Hbad as [[Hnone ->] | [s [Hstate [Hmember ->]]]].
    + rewrite Hnone. unfold raise. rewrite <- app_assoc. reflexivity.
    + rewrite Hstate. unfold State_lookup. rewrite Hmember.
      unfold raise. rewrite <- app_assoc. reflexivity.
Qed.

(** X10.  A job that succeeded and left no readable output: when the state is
    SUCCEEDED and opening or unpickling [output_uri] raises, the call raises
    that exception as it is, not [AipError], after the one attempt. *)
Theorem unreadable_output_is_raised (t : Task) (w : World)
    (pre : list (list (string * pyval))) (last : list (string * pyval))
    (c' : AipClient) (e : exn) (fs' : GcsFs) (fuel : nat) :
  answers (job_name t) (aip_client w) (pre ++ [last]) c' ->
  Forall reports_executing pre ->
  reports last SUCCEEDED ->
  is_executing SUCCEEDED = false ->
  load_from (output_uri t) (gcs_fs w) = (inl e, fs') ->
  (length pre <= fuel)%nat ->
  wait_for_results fuel t w
  = (Raises e,
     {| gcs_fs := fs';
        aip_client := c';
        trace := trace w ++ Get (job_name t)
                   :: rounds (job_name t) (length pre)
                   ++ [Open (output_uri t) "rb"] |}).
Proof.
  intros Hans Hexec Hlast Hterm Hload Hfuel.
  rewrite wait_for_results_split.
  rewrite (polls_until_terminal t last SUCCEEDED c' Hlast Hterm
             pre fuel w Hans Hexec Hfuel).
  unfold conclude.
  destruct (State_eq_dec SUCCEEDED SUCCEEDED) as [_|Hne];
    [| now contradiction Hne].
  unfold bind, emit, on_fs. cbn [aip_client gcs_fs trace].
  rewrite Hload. cbn [of_sum]. rewrite <- app_assoc. reflexivity.
Qed.

(** X11.  A failure the provider does not explain: when the terminal response is
    not SUCCEEDED and has no [errorMessage], the message of the [AipError]
    is the job id followed by [": None"]. *)
Theorem failure_without_message (t : Task) (w : World)
    (pre : list (list (string * pyval))) (last : list (string * pyval))
    (c' : AipClient) (st : State) (fuel : nat) :
  answers (job_name t) (aip_client w) (pre ++ [last]) c' ->
  Forall reports_executing pre ->
  reports last st ->
  is_executing st = false ->
  st <> SUCCEEDED ->
  Dict.lookup "errorMessage" last = None ->
  (length pre <= fuel)%nat ->
  fst (wait_for_results fuel t w) = Raises (AipError (job_id t ++ ": None")).
Proof.
  intros Hans Hexec Hlast Hterm Hfail Hnone Hfuel.
  rewrite wait_for_results_split.
  rewrite (polls_until_terminal t last st c' Hlast Hterm
             pre fuel w Hans Hexec Hfuel).
  unfold conclude.
  destruct (State_eq_dec st SUCCEEDED) as [Heq|_];
    [now contradiction Hfail |].
  unfold error_of. rewrite Hnone. reflexivity.
Qed.

(** X12.  While every [get] is answered by a response that reports an executing
    state, [wait_for_results] neither returns nor raises: whatever the
    bound, it is used up, with one sleep of 10 per round and the object
    store left alone. *)
Theorem wait_for_results_waits_while_executing (t : Task) :
  (forall c, exists r c1,
      jobs_get (job_name t) c = (inr r, c1) /\ reports_executing r) ->
  forall (fuel : nat) (w : World),
  exists c',
    wait_for_results fuel t w
    = (Unfinished,
       {| gcs_fs := gcs_fs w;
          aip_client := c';
          trace := trace w ++ Get (job_name t)
                     :: rounds (job_name t) fuel |}).
Proof.
  intros Hbusy fuel.
  assert (Hloop : forall w, exists c',
             bind (_get_state_and_error t) (poll_while fuel t) w
             = (Unfinished,
                {| gcs_fs := gcs_fs w;
                   aip_client := c';
                   trace := trace w ++ Get (job_name t)
                              :: rounds (job_name t) fuel |})).
  { induction fuel as [|fuel IH]; intros w;
      destruct (Hbusy (aip_client w)) as [r [c1 [Hget [st [Hr Hrun]]]]];
      unfold bind at 1;
      rewrite (get_state_and_error_reports t w r c1 st Hget Hr);
      cbn [poll_while fst]; rewrite Hrun.
    - exists c1. reflexivity.
    - unfold bind at 1. unfold sleep, emit.
      destruct (IH {| gcs_fs := gcs_fs w;
                      aip_client := c1;
                      trace := (trace w ++ [Get (job_name t)])
                                 ++ [Sleep 10] |}) as [c' Hrest].
      cbn [aip_client gcs_fs trace]. cbn [aip_client gcs_fs trace] in Hrest.
      exists c'. refine (eq_trans Hrest _). cbn [rounds].
      rewrite <- !app_assoc. reflexivity. }
  intros w. destruct (Hloop w) as [c' Hrun]. exists c'.
  rewrite wait_for_results_split, Hrun. reflexivity.
Qed.

(** X14.  Without [cloudpickle], [submit] raises what the import raises and does
    nothing else: no blob is opened, no job is created, the world is as it
    was. *)
Theorem submit_needs_cloudpickle (t : Task) (w : World) (e : exn) :
  import_optional_dependency "cloudpickle" = Some e ->
  submit t w = (Raises e, w).
Proof.
  intros Himport. unfold submit, _stage, bind. rewrite Himport.
  reflexivity.
Qed.

(** X15.  What [submit] creates is what [wait_for_results] asks about, and what
    the remote process is told to load is what [submit] staged.  After a
    [submit] that returned, the calls made are the write to a path and the
    create of a request under a parent; the request names the job, and its
    last argument is that path.  Any later [wait_for_results] starts by
    asking for that job under that parent, and never opens the staged
    path. *)
Theorem submit_and_wait_agree (t : Task) (w w1 : World) :
  submit t w = (Returns tt, w1) ->
  exists path body parent jid,
    trace w1 = (trace w ++ [Open path "wb"; Create body parent])%list
    /\ getitem "jobId" body = Some (PStr jid)
    /\ getitem_in "trainingInput" "args" body
       = Some (PList [PStr "python"; PStr "-m"; PStr "bionic.aip.main";
                      PStr path])
    /\ forall (fuel : nat) (w2 : World),
        exists rest,
          trace (snd (wait_for_results fuel t w2))
          = (trace w2 ++ Get (parent ++ "/jobs/" ++ jid) :: rest)%list
          /\ forall mode, ~ In (path, mode) (opens rest).
Proof.
  intros Hsubmit.
  exists (inputs_uri t), (_ai_platform_job_spec t), (job_parent t),
    (job_id t).
  split; [| split; [| split]].
  - revert Hsubmit. unfold submit, _stage.
    destruct (import_optional_dependency "cloudpickle") as [e|];
      [unfold bind, raise; intros [=] |].
    fold (job_parent t).
    unfold bind, emit, on_fs, on_client. cbn [gcs_fs aip_client trace].
    destruct (dump_to (inputs_uri t) t (gcs_fs w)) as [[e|[]] fs1];
      cbn [of_sum gcs_fs aip_client trace]; [intros [=] |].
    destruct (jobs_create (_ai_platform_job_spec t) (job_parent t)
                (aip_client w)) as [[e|[]] c1];
      cbn [of_sum]; [intros [=] |].
    intros [= <-]. cbn [trace]. rewrite <- app_assoc. reflexivity.
  - destruct t as [nm fn [u img prj acc net] [mach wc wm]].
    unfold _ai_platform_job_spec; simpl.
    destruct net; destruct wc as [n|]; try destruct (0 <? n); reflexivity.
  - destruct t as [nm fn [u img prj acc net] [mach wc wm]].
    unfold _ai_platform_job_spec; simpl.
    destruct net; destruct wc as [n|]; try destruct (0 <? n); reflexivity.
  - intros fuel w2.
    destruct (wait_for_results_shape fuel t w2)
      as [k [tail [Htrace [_ [Htail _]]]]].
    exists (rounds (job_name t) k ++ tail)%list. split.
    + rewrite Htrace. unfold job_name, job_parent.
      rewrite append_assoc. reflexivity.
    + intros mode. rewrite opens_app, rounds_opens. cbn [app].
      destruct Htail as [-> | ->]; cbn [opens In]; [tauto |].
      intros [Hpair | []].
      exact (inputs_uri_differs_from_output_uri t t
               (eq_sym (f_equal fst Hpair))).
Qed.

End MoreLifecycle.

Lemma wait_for_results_calls_witness :
  exists added,
    trace (snd (wait_for_results 2 Sim.solo Sim.succeeding)) = added
    /\ creates added = []
    /\ describe_calls added = S (length (sleeps added))
    /\ opens added = [(output_uri Sim.solo, "rb")].
Proof.
  destruct (wait_for_results_calls 2 Sim.solo Sim.succeeding)
    as [added [Htrace [Hcreates [_ [_ [Hcalls [_ [_ [_ Hret]]]]]]]]].
  exists added. split; [exact Htrace |].
  split; [exact Hcreates | split; [exact Hcalls |]].
  apply (Hret (PInt 42)). reflexivity.
Defined.

Lemma describe_failure_ends_the_wait_witness :
  wait_for_results 1 Sim.solo (Sim.world [] true [Sim.reply "RUNNING"] 0)
  = (Raises (External "StopIteration" "projects/proj/jobs/u1_t"),
     Sim.mk [] true [] 0 []
       [Get "projects/proj/jobs/u1_t"; Sleep 10;
        Get "projects/proj/jobs/u1_t"]).
Proof.
  apply (describe_failure_ends_the_wait Sim.solo
           (Sim.world [] true [Sim.reply "RUNNING"] 0)
           [Sim.reply "RUNNING"]
           {| Sim.replies := []; Sim.quota := 0; Sim.created := [] |}
           {| Sim.replies := []; Sim.quota := 0; Sim.created := [] |}).
  - eapply answers_cons; [reflexivity | apply answers_nil].
  - repeat constructor; exists Sim.RUNNING;
      (split; [exists "RUNNING"; split; reflexivity | reflexivity]).
  - reflexivity.
  - simpl. lia.
Defined.

Lemma malformed_response_raises_KeyError_witness :
  wait_for_results 1 Sim.solo
    (Sim.world [] true [Sim.reply "RUNNING"; Sim.reply "PAUSED"] 0)
  = (Raises (KeyError (PStr "PAUSED")),
     Sim.mk [] true [] 0 []
       [Get "projects/proj/jobs/u1_t"; Sleep 10;
        Get "projects/proj/jobs/u1_t"])
  /\ wait_for_results 0 Sim.solo
       (Sim.world [] true [[("jobId", PStr "u1_t")]] 0)
     = (Raises (KeyError (PStr "state")),
        Sim.mk [] true [] 0 [] [Get "projects/proj/jobs/u1_t"]).
Proof.
  split.
  - apply (malformed_response_raises_KeyError Sim.solo
             (Sim.world [] true [Sim.reply "RUNNING"; Sim.reply "PAUSED"] 0)
             [Sim.reply "RUNNING"] (Sim.reply "PAUSED")
             {| Sim.replies := [Sim.reply "PAUSED"]; Sim.quota := 0;
                Sim.created := [] |}
             {| Sim.replies := []; Sim.quota := 0; Sim.created := [] |}).
    + eapply answers_cons; [reflexivity | apply answers_nil].
    + repeat constructor; exists Sim.RUNNING;
        (split; [exists "RUNNING"; split; reflexivity | reflexivity]).
    + reflexivity.
    + right. exists "PAUSED". repeat split; reflexivity.
    + simpl. lia.
  - apply (malformed_response_raises_KeyError Sim.solo
             (Sim.world [] true [[("jobId", PStr "u1_t")]] 0)
             [] [("jobId", PStr "u1_t")]
             {| Sim.replies := [[("jobId", PStr "u1_t")]]; Sim.quota := 0;
                Sim.created := [] |}
             {| Sim.replies := []; Sim.quota := 0; Sim.created := [] |}).
    + apply answers_nil.
    + constructor.
    + reflexivity.
    + left. split; reflexivity.
    + simpl. lia.
Defined.

Lemma unreadable_output_is_raised_witness :
  wait_for_results 1 Sim.solo
    (Sim.world [] true [Sim.reply "RUNNING"; Sim.reply "SUCCEEDED"] 0)
  = (Raises (External "FileNotFoundError"
               "gs://proj/bionic/u1/t-output.cloudpickle"),
     Sim.mk [] true [] 0 []
       [Get "projects/proj/jobs/u1_t"; Sleep 10;
        Get "projects/proj/jobs/u1_t";
        Open "gs://proj/bionic/u1/t-output.cloudpickle" "rb"]).
Proof.
  apply (unreadable_output_is_raised Sim.solo
           (Sim.world [] true [Sim.reply "RUNNING"; Sim.reply "SUCCEEDED"] 0)
           [Sim.reply "RUNNING"] (Sim.reply "SUCCEEDED")
           {| Sim.replies := []; Sim.quota := 0; Sim.created := [] |}).
  - repeat (eapply answers_cons; [reflexivity|]). apply answers_nil.
  - repeat constructor; exists Sim.RUNNING;
      (split; [exists "RUNNING"; split; reflexivity | reflexivity]).
  - exists "SUCCEEDED". split; reflexivity.
  - reflexivity.
  - reflexivity.
  - simpl. lia.
Defined.

Lemma wait_for_results_waits_while_executing_witness :
  exists calls,
    wait_for_results 3 Sim.solo Forever.start
    = (Unfinished,
       @Build_World Sim.runtime Forever.services tt calls
         [Get "projects/proj/jobs/u1_t"; Sleep 10;
          Get "projects/proj/jobs/u1_t"; Sleep 10;
          Get "projects/proj/jobs/u1_t"; Sleep 10;
          Get "projects/proj/jobs/u1_t"]).
Proof.
  apply (wait_for_results_waits_while_executing (SV := Forever.services)
           Sim.solo).
  intros c. exists (Sim.reply "RUNNING"), (S c).
  split; [reflexivity |].
  exists Sim.RUNNING.
  split; [exists "RUNNING"; split; reflexivity | reflexivity].
Defined.

Lemma submit_needs_cloudpickle_witness :
  submit Bare.task Bare.start
  = (Raises (External "ImportError" "cloudpickle"), Bare.start).
Proof.
  apply (submit_needs_cloudpickle (SV := Bare.services)). reflexivity.
Defined.

Lemma submit_and_wait_agree_witness :
  exists path body parent jid,
    trace (snd (submit Sim.solo Sim.accepting))
    = [Open path "wb"; Create body parent]
    /\ path = "gs://proj/bionic/u1/t-inputs.cloudpickle"
    /\ parent = "projects/proj"
    /\ jid = "u1_t"
    /\ getitem "jobId" body = Some (PStr jid).
Proof.
  destruct (submit_and_wait_agree Sim.solo Sim.accepting
              (snd (submit Sim.solo Sim.accepting)) eq_refl)
    as [path [body [parent [jid [Htrace [Hjid _]]]]]].
  exists path, body, parent, jid.
  cbv in Htrace. injection Htrace as Hpath Hbody Hparent.
  subst path body parent.
  cbv in Hjid. injection Hjid as Hj. subst jid.
  repeat split; reflexivity.
Defined.

(** ** More on cache entries *)

Lemma string_compare_refl (s : string) : String.compare s s = Eq.
Proof.
  induction s as [|ch s IH]; simpl; [reflexivity|].
  unfold Ascii.compare. rewrite N.compare_refl. exact IH.
Qed.

Lemma string_compare_lt_trans (a b c : string) :
  String.compare a b = Lt ->
  String.compare b c = Lt ->
  String.compare a c = Lt.
Proof.
  revert b c.
  induction a as [|x a IH]; intros [|y b] [|z c]; simpl;
    try discriminate; try reflexivity.
  destruct (Ascii.compare x y) eqn:Hxy; try discriminate;
    destruct (Ascii.compare y z) eqn:Hyz; try discriminate; intros Hab Hbc.
  - apply Ascii.compare_eq_iff in Hxy, Hyz. subst.
    unfold Ascii.compare. rewrite N.compare_refl. exact (IH b c Hab Hbc).
  - apply Ascii.compare_eq_iff in Hxy. subst. rewrite Hyz. reflexivity.
  - apply Ascii.compare_eq_iff in Hyz. subst. rewrite Hxy. reflexivity.
  - unfold Ascii.compare in *.
    assert (Hxz : (N_of_ascii x ?= N_of_ascii z)%N = Lt)
      by exact (N.lt_trans _ _ _ Hxy Hyz).
    rewrite Hxz. reflexivity.
Qed.

Lemma string_ltb_compare (a b : string) :
  String.ltb a b = true <-> String.compare a b = Lt.
Proof.
  unfold String.ltb. destruct (String.compare a b);
    split; intros; try reflexivity; discriminate.
Qed.

Section MoreEntries.

Context {OS : Outside}.

(** X16.  Entries that are equal under [==] have the same hash, whatever their
    other attributes hold, [metadata_url] included: both methods read
    [_comparison_key] alone. *)
Theorem equal_entries_hash_alike (e1 e2 : CacheEntry) :
  op_eq e1 (AnEntry e2) = inr (RBool true) ->
  __hash__ e1 = __hash__ e2.
Proof.
  unfold op_eq, __eq__, __hash__. intros [= Heq].
  apply String.eqb_eq in Heq. rewrite Heq. reflexivity.
Qed.

(** X17.  [==] between entries is an equivalence: every entry equals itself, the
    two orders of the operands give the same answer, and equality carries
    over a common entry. *)
Theorem entry_eq_is_equivalence (e1 e2 e3 : CacheEntry) :
  op_eq e1 (AnEntry e1) = inr (RBool true)
  /\ op_eq e1 (AnEntry e2) = op_eq e2 (AnEntry e1)
  /\ (op_eq e1 (AnEntry e2) = inr (RBool true) ->
      op_eq e2 (AnEntry e3) = inr (RBool true) ->
      op_eq e1 (AnEntry e3) = inr (RBool true)).
Proof.
  unfold op_eq, __eq__. split; [| split].
  - rewrite String.eqb_refl. reflexivity.
  - rewrite String.eqb_sym. reflexivity.
  - intros [= H12] [= H23].
    apply String.eqb_eq in H12, H23. rewrite H12, H23, String.eqb_refl.
    reflexivity.
Qed.

(** X18.  [<] between entries is a strict total order that agrees with [==]: no
    entry is below itself, [<] is transitive, and of [e1 < e2], [e1 == e2]
    and [e2 < e1] exactly one holds.  So sorting entries is well defined up
    to the order of equal ones. *)
Theorem entry_lt_is_strict_total_order (e1 e2 e3 : CacheEntry) :
  op_lt e1 (AnEntry e1) = inr (RBool false)
  /\ (op_lt e1 (AnEntry e2) = inr (RBool true) ->
      op_lt e2 (AnEntry e3) = inr (RBool true) ->
      op_lt e1 (AnEntry e3) = inr (RBool true))
  /\ ((op_lt e1 (AnEntry e2) = inr (RBool true)
       /\ op_eq e1 (AnEntry e2) = inr (RBool false)
       /\ op_lt e2 (AnEntry e1) = inr (RBool false))
      \/ (op_lt e1 (AnEntry e2) = inr (RBool false)
          /\ op_eq e1 (AnEntry e2) = inr (RBool true)
          /\ op_lt e2 (AnEntry e1) = inr (RBool false))
      \/ (op_lt e1 (AnEntry e2) = inr (RBool false)
          /\ op_eq e1 (AnEntry e2) = inr (RBool false)
          /\ op_lt e2 (AnEntry e1) = inr (RBool true))).
Proof.
  unfold op_lt, op_eq, __lt__, __eq__.
  set (k1 := _comparison_key e1). set (k2 := _comparison_key e2).
  set (k3 := _comparison_key e3).
  split; [| split].
  - unfold String.ltb. rewrite string_compare_refl. reflexivity.
  - intros [= H12] [= H23].
    apply string_ltb_compare in H12, H23.
    assert (H13 : String.ltb k1 k3 = true)
      by (apply string_ltb_compare;
          exact (string_compare_lt_trans k1 k2 k3 H12 H23)).
    rewrite H13. reflexivity.
  - unfold String.ltb. rewrite (String.compare_antisym k2 k1).
    destruct (String.compare k1 k2) eqn:Hcmp; cbn [CompOpp].
    + apply String.compare_eq_iff in Hcmp. rewrite Hcmp, String.eqb_refl.
      right; left. repeat split; reflexivity.
    + assert (Hne : String.eqb k1 k2 = false).
      { apply String.eqb_neq. intros Heq.
        rewrite Heq, string_compare_refl in Hcmp. discriminate Hcmp. }
      rewrite Hne. left. repeat split; reflexivity.
    + assert (Hne : String.eqb k1 k2 = false).
      { apply String.eqb_neq. intros Heq.
        rewrite Heq, string_compare_refl in Hcmp. discriminate Hcmp. }
      rewrite Hne. right; right. repeat split; reflexivity.
Qed.

End MoreEntries.

Section MoreBrowse.

Import CacheBrowse.

Context {OS : Outside} {PS : Persistence}.

Lemma get_entries_when_ready (self : Cache) (deriver : Deriver) :
  get_ready (_deriver self) = inr deriver ->
  get_entries self
  = inr (map (CacheEntry_init {| _deriver := deriver |})
           (items_of (_local_store deriver)
              ++ items_of (_cloud_store deriver))).
Proof.
  intros Hready. unfold get_entries. rewrite Hready.
  destruct (_local_store deriver) as [local|];
    destruct (_cloud_store deriver) as [cloud|];
    cbn [present flat_map items_of];
    rewrite ?map_app, ?app_nil_r; reflexivity.
Qed.

(** X19.  [get_entries] first makes the deriver ready, and raises what that
    raises.  Otherwise it yields one entry per inventory item, the items of
    the local store first and then those of the cloud store, in the order
    the stores list them; a store that is [None] contributes nothing, and
    with both [None] nothing is yielded. *)
Theorem get_entries_lists_local_then_cloud (self : Cache) :
  (forall e, get_ready (_deriver self) = inl e -> get_entries self = inl e)
  /\ (forall deriver,
        get_ready (_deriver self) = inr deriver ->
        get_entries self
        = inr (map (CacheEntry_init {| _deriver := deriver |})
                 (items_of (_local_store deriver)
                    ++ items_of (_cloud_store deriver)))
        /\ (_local_store deriver = None ->
            _cloud_store deriver = None ->
            get_entries self = inr [])).
Proof.
  split.
  - intros e Hready. unfold get_entries. rewrite Hready. reflexivity.
  - intros deriver Hready.
    pose proof (get_entries_when_ready self deriver Hready) as Hall.
    split; [exact Hall |].
    intros Hlocal Hcloud. rewrite Hall, Hlocal, Hcloud. reflexivity.
Qed.

(** X20.  The metadata URLs and the tiers of the entries that [get_entries]
    yields are those of the listed items, one for one. *)
Theorem get_entries_keep_urls_and_tiers (self : Cache) (deriver : Deriver)
    (entries : list CacheEntry) :
  get_ready (_deriver self) = inr deriver ->
  get_entries self = inr entries ->
  map metadata_url entries
  = map abs_metadata_url
      (items_of (_local_store deriver) ++ items_of (_cloud_store deriver))
  /\ map tier entries
     = map (fun item => inv_tier (inventory item))
         (items_of (_local_store deriver) ++ items_of (_cloud_store deriver))
  /\ length entries
     = (length (items_of (_local_store deriver))
        + length (items_of (_cloud_store deriver)))%nat.
Proof.
  intros Hready Hentries.
  rewrite (get_entries_when_ready self deriver Hready) in Hentries.
  injection Hentries as <-.
  rewrite !map_map, length_map. cbn [CacheEntry_init metadata_url tier].
  split; [reflexivity | split; [reflexivity | apply length_app]].
Qed.

End MoreBrowse.

Lemma equal_entries_hash_alike_witness :
  __hash__ (CacheEntry_init Demo.the_cache Demo.local_a)
  = __hash__ (CacheEntry_init Demo.the_cache Demo.cloud_a).
Proof.
  apply (equal_entries_hash_alike
           (CacheEntry_init Demo.the_cache Demo.local_a)
           (CacheEntry_init Demo.the_cache Demo.cloud_a)).
  reflexivity.
Defined.

Lemma entry_eq_is_equivalence_witness :
  op_eq (CacheEntry_init Demo.the_cache Demo.local_a)
    (AnEntry (CacheEntry_init Demo.the_cache Demo.local_a))
  = inr (RBool true).
Proof.
  apply (proj2 (proj2 (entry_eq_is_equivalence
                         (CacheEntry_init Demo.the_cache Demo.local_a)
                         (CacheEntry_init Demo.the_cache Demo.cloud_a)
                         (CacheEntry_init Demo.the_cache Demo.local_a))));
    reflexivity.
Defined.

Lemma entry_lt_is_strict_total_order_witness :
  op_lt (CacheEntry_init Demo.the_cache Demo.local_a)
    (AnEntry (CacheEntry_init Demo.the_cache CacheBrowse.cloud_c))
  = inr (RBool true).
Proof.
  apply (proj1 (proj2 (entry_lt_is_strict_total_order
                         (CacheEntry_init Demo.the_cache Demo.local_a)
                         (CacheEntry_init Demo.the_cache Demo.cloud_b)
                         _)));
    reflexivity.
Defined.

Lemma get_entries_lists_local_then_cloud_witness :
  CacheBrowse.get_entries (PS := CacheBrowse.LocalOnly.persistence)
    Demo.the_cache
  = inr [CacheEntry_init Demo.the_cache Demo.local_a].
Proof.
  apply (proj1 (proj2 (get_entries_lists_local_then_cloud
                         (PS := CacheBrowse.LocalOnly.persistence)
                         Demo.the_cache) tt eq_refl)).
Defined.

Lemma get_entries_keep_urls_and_tiers_witness :
  map metadata_url [CacheEntry_init Demo.the_cache Demo.local_a] = ["a"]
  /\ map tier [CacheEntry_init Demo.the_cache Demo.local_a] = ["local"].
Proof.
  destruct (get_entries_keep_urls_and_tiers
              (PS := CacheBrowse.LocalOnly.persistence)
              Demo.the_cache tt
              [CacheEntry_init Demo.the_cache Demo.local_a]
              eq_refl eq_refl) as [Hurls [Htiers _]].
  split; [exact Hurls | exact Htiers].
Defined.

Lemma failure_without_message_witness :
  fst (wait_for_results 0 Sim.solo
         (Sim.world [] true [Sim.reply "CANCELLED"] 0))
  = Raises (AipError "u1_t: None").
Proof.
  apply (failure_without_message Sim.solo
           (Sim.world [] true [Sim.reply "CANCELLED"] 0)
           [] (Sim.reply "CANCELLED")
           {| Sim.replies := []; Sim.quota := 0; Sim.created := [] |}
           Sim.CANCELLED).
  - eapply answers_cons; [reflexivity | apply answers_nil].
  - constructor.
  - exists "CANCELLED". split; reflexivity.
  - reflexivity.
  - discriminate.
  - reflexivity.
  - simpl. lia.
Defined.

Lemma inputs_uri_is_no_output_uri_witness :
  inputs_uri Sim.solo <> output_uri Sim.cluster.
Proof.
  exact (proj1 (inputs_uri_is_no_output_uri Sim.solo Sim.cluster)).
Defined.

Lemma job_id_collides_across_runs_witness :
  job_id (with_uuid_and_name Sim.solo "run_a" "t")
  = job_id (with_uuid_and_name Sim.solo "run" "a_t").
Proof.
  exact (proj1 (job_id_collides_across_runs Sim.solo "run" "a" "t")).
Defined.
